(** * FATS: a passthrough filesystem that fuzzes files on open

    A shallow embedding of [fats.py] (class [FATS] and the library
    functions of [posixpath], [tempfile] and [os] it calls), followed by
    the properties of its specification.

    - Python [str] values are [string]s, [list]s are [list]s, the
      dictionary [self.temp_files] is a [gmap] from descriptors to paths.
    - Code that raises is embedded in an error monad ([result]); code that
      touches the file system or [self] threads a configuration and keeps
      the effects performed before an exception. *)

From Stdlib Require Import ZArith Ascii String.
From stdpp Require Import gmap strings list fin_maps fin_sets.

Local Open Scope string_scope.
Local Open Scope Z_scope.

(** ** Exceptions and results *)

Inductive exn : Type :=
  | FuseOSError (errno : Z)
  | OSError (errno : Z)
  | CalledProcessError (returncode : Z)
  | ValueError
  | IndexError
  | KeyError.

#[global] Instance exn_eq_dec : EqDecision exn.
Proof. solve_decision. Defined.

Inductive result (A : Type) : Type :=
  | Ok (a : A)
  | Raise (e : exn).
Arguments Ok {A} a.
Arguments Raise {A} e.

(** The [errno] values used below (Linux numbering). *)
Module errno.
Definition ENOENT : Z := 2.
Definition EIO : Z := 5.
Definition EBADF : Z := 9.
Definition EACCES : Z := 13.
Definition EEXIST : Z := 17.
Definition EISDIR : Z := 21.
Definition EINVAL : Z := 22.
Definition EMFILE : Z := 24.
Definition ELOOP : Z := 40.
End errno.

(** [except FileNotFoundError]: Python raises that subclass of [OSError]
    exactly for [ENOENT]. *)
Definition is_FileNotFoundError (e : exn) : bool :=
  match e with
  | OSError n => n =? errno.ENOENT
  | _ => false
  end.

(** [except OSError]: [FuseOSError] is a subclass of [OSError]. *)
Definition is_OSError (e : exn) : bool :=
  match e with
  | OSError _ | FuseOSError _ => true
  | _ => false
  end.

(** ** Python [str] methods *)

Module str.

Definition sep : ascii := "/"%char.

(** [s.startswith(pre)] *)
Definition startswith (s pre : string) : bool := String.prefix pre s.

(** [s.endswith("/")] *)
Fixpoint endswith_sep (s : string) : bool :=
  match s with
  | EmptyString => false
  | String c EmptyString => Ascii.eqb c sep
  | String _ s' => endswith_sep s'
  end.

(** [s[1:]] *)
Definition tail (s : string) : string :=
  match s with
  | EmptyString => EmptyString
  | String _ s' => s'
  end.

(** [s.split("/")]: every separator cuts, empty pieces are kept. *)
Fixpoint split (s : string) : list string :=
  match s with
  | EmptyString => [EmptyString]
  | String c s' =>
      if Ascii.eqb c sep then EmptyString :: split s'
      else match split s' with
           | h :: t => String c h :: t
           | [] => [String c EmptyString]
           end
  end.

(** [s.lstrip("/")] *)
Fixpoint lstrip (s : string) : string :=
  match s with
  | String c s' => if Ascii.eqb c sep then lstrip s' else s
  | EmptyString => EmptyString
  end.

(** [s.rstrip("/")] *)
Fixpoint rstrip (s : string) : string :=
  match s with
  | EmptyString => EmptyString
  | String c s' =>
      match rstrip s' with
      | EmptyString =>
          if Ascii.eqb c sep then EmptyString else String c EmptyString
      | r => String c r
      end
  end.

(** ["/".join(l)] *)
Definition join (l : list string) : string := String.concat "/" l.

(** ["/" * n] *)
Fixpoint slashes (n : nat) : string :=
  match n with
  | O => EmptyString
  | S n' => String sep (slashes n')
  end.

End str.

(** ** [posixpath] *)

Module posixpath.

(** [os.path.join(a, b)] for one trailing component. *)
Definition join (a b : string) : string :=
  if str.startswith b "/" then b
  else if (String.eqb a "" || str.endswith_sep a)%bool then a +:+ b
  else a +:+ "/" +:+ b.

(** One turn of the loop of [normpath] over the pieces of the path;
    [new_comps] is the list built so far, in the order of the source. *)
Definition normpath_step (initial_slashes : nat) (new_comps : list string)
    (comp : string) : list string :=
  if (String.eqb comp "" || String.eqb comp ".")%bool then new_comps
  else if (negb (String.eqb comp "..")
           || (Nat.eqb initial_slashes 0 && bool_decide (new_comps = []))
           || (match last new_comps with
               | Some c => String.eqb c ".."
               | None => false
               end))%bool
  then (new_comps ++ [comp])%list
  else removelast new_comps.

(** [os.path.normpath(path)] *)
Definition normpath (path : string) : string :=
  if String.eqb path "" then "."
  else
    let initial_slashes : nat :=
      if str.startswith path "/" then
        if (str.startswith path "//" && negb (str.startswith path "///"))%bool
        then 2%nat else 1%nat
      else 0%nat in
    let comps := str.split path in
    let new_comps := fold_left (normpath_step initial_slashes) comps [] in
    let path' := str.slashes initial_slashes +:+ str.join new_comps in
    if String.eqb path' "" then "." else path'.

(** [os.path.abspath(path)]; [cwd] is the value of [os.getcwd()]. *)
Definition abspath (cwd path : string) : string :=
  normpath (if str.startswith path "/" then path else join cwd path).

(** Python's [<] on lists of strings: the first differing position
    decides, a proper prefix is smaller. *)
Fixpoint list_lt (l1 l2 : list string) : bool :=
  match l1, l2 with
  | [], [] => false
  | [], _ :: _ => true
  | _ :: _, [] => false
  | x :: l1', y :: l2' =>
      if String.eqb x y then list_lt l1' l2' else String.ltb x y
  end.

(** The loop of [commonprefix]: [for i, c in enumerate(s1)], reading
    [s2[i]] and cutting [s1] at the first difference; [rest2] is what is
    left of [s2] at index [i]. *)
Fixpoint commonprefix_loop (s1 rest2 : list string) : result (list string) :=
  match s1 with
  | [] => Ok []
  | c :: s1' =>
      match rest2 with
      | [] => Raise IndexError
      | d :: rest2' =>
          if String.eqb c d then
            match commonprefix_loop s1' rest2' with
            | Ok p => Ok (c :: p)
            | Raise e => Raise e
            end
          else Ok []
      end
  end.

(** [os.path.commonprefix([a, b])] on two lists. *)
Definition commonprefix (a b : list string) : result (list string) :=
  let s1 := if list_lt b a then b else a in   (* min([a, b]) *)
  let s2 := if list_lt a b then b else a in   (* max([a, b]) *)
  commonprefix_loop s1 s2.

(** [abspath(p).lstrip(sep)] cut at the separators, [[]] when nothing is
    left: the list [relpath] works on. *)
Definition tail_list (cwd p : string) : list string :=
  let t := str.lstrip (abspath cwd p) in
  if String.eqb t "" then [] else str.split t.

(** [os.path.relpath(path, start)] *)
Definition relpath (cwd path start : string) : result string :=
  if String.eqb path "" then Raise ValueError
  else
    let start_list := tail_list cwd start in
    let path_list := tail_list cwd path in
    match commonprefix start_list path_list with
    | Raise e => Raise e
    | Ok common =>
        let i := length common in
        let rel_list :=
          (replicate (length start_list - i)%nat ".." ++ drop i path_list)%list in
        if bool_decide (rel_list = []) then Ok "."
        else Ok (str.join rel_list)
    end.

End posixpath.

(** ** A state and exception monad

    [M S A] is a computation over a state [S] that returns an [A] or raises;
    the state reached when the exception is raised is kept, as the effects of
    a Python function are. *)

Definition M (S A : Type) : Type := S -> result A * S.

Definition ret {S A} (a : A) : M S A := fun s => (Ok a, s).

Definition raise {S A} (e : exn) : M S A := fun s => (Raise e, s).

Definition bind {S A B} (m : M S A) (k : A -> M S B) : M S B :=
  fun s =>
    match m s with
    | (Ok a, s') => k a s'
    | (Raise e, s') => (Raise e, s')
    end.

(** [try: m  except ... as e: h e]; a handler that does not match re-raises. *)
Definition try_except {S A} (m : M S A) (h : exn -> M S A) : M S A :=
  fun s =>
    match m s with
    | (Ok a, s') => (Ok a, s')
    | (Raise e, s') => h e s'
    end.

(** [try: m  finally: f] *)
Definition try_finally {S A} (m : M S A) (f : M S unit) : M S A :=
  fun s =>
    match m s with
    | (r, s') =>
        match f s' with
        | (Ok _, s'') => (r, s'')
        | (Raise e, s'') => (Raise e, s'')
        end
    end.

Definition get {S} : M S S := fun s => (Ok s, s).

Definition modify {S} (f : S -> S) : M S unit := fun s => (Ok tt, f s).

Definition lift_result {S A} (r : result A) : M S A := fun s => (r, s).

Declare Scope monad_scope.
Delimit Scope monad_scope with monad.
Notation "x <- m ;; k" := (bind m (fun x => k))
  (at level 100, m at next level, right associativity) : monad_scope.
Notation "m ;; k" := (bind m (fun _ => k))
  (at level 100, right associativity) : monad_scope.
Local Open Scope monad_scope.

(** ** The storage driver: [os], [tempfile], [subprocess]

    The real file system is a finite map from normalised absolute paths to
    inodes.  The driver resolves a path lexically ([os.key]: relative to the
    working directory, with [.], [..] and repeated separators removed); it
    stores and reads back symbolic links but does not traverse them, and
    does not require a parent directory to exist.  Of the flags of
    [os.open] it knows the access mode, [O_CREAT], [O_EXCL], [O_NOFOLLOW]
    and [O_TRUNC] together with a writable access mode; a new file gets
    the permission bits it is asked for, as under a umask of 0.  Failures
    that depend on what the map does not hold (permissions, quotas,
    descriptor limits, a full disk) are decided by the environment through
    [fault].  The properties below that depend on one of these points say
    so in their hypotheses. *)

Inductive kind : Type :=
  | KFile (data : string)
  | KDir
  | KSymlink (target : string).

Record inode : Type := Inode {
  i_kind : kind;
  i_perm : Z;
  i_nlink : Z;
  i_uid : Z;
  i_gid : Z;
  i_atime : Z;
  i_mtime : Z;
  i_ctime : Z;
  i_dev : Z;
  i_blksize : Z
}.

(** What [os.lstat] returns. *)
Record stat_result : Type := StatResult {
  st_mode : Z;
  st_dev : Z;
  st_nlink : Z;
  st_uid : Z;
  st_gid : Z;
  st_size : Z;
  st_atime : Z;
  st_mtime : Z;
  st_ctime : Z;
  st_blksize : Z
}.

(** The calls to the driver that change something; they are recorded in
    [trace] in the order in which they are attempted. *)
Inductive syscall : Type :=
  | SysOpen (path : string) (flags mode : Z)
  | SysClose (fd : nat)
  | SysRemove (path : string)
  | SysFtruncate (fd : nat) (length : Z)
  | SysSpawn (argv : list string).

#[global] Instance syscall_eq_dec : EqDecision syscall.
Proof. solve_decision. Defined.

(** An executable on the search path: from the content of the file named by
    its argument ([None] when there is no such regular file) to its exit
    status and what it writes on its standard output. *)
Definition program : Type := option string -> Z * string.

Record World : Type := mkWorld {
  disk : gmap string inode;          (* the real file system *)
  fds : gmap nat string;             (* open descriptors of the process *)
  cwd : string;                      (* os.getcwd() *)
  tmpdir : string;                   (* tempfile.gettempdir() *)
  tmp_names : list string;           (* the names tempfile will draw *)
  programs : gmap string program;    (* executables on PATH *)
  fault : syscall -> option Z;       (* errno the environment answers with *)
  trace : list syscall               (* driver calls attempted so far *)
}.

Definition set_disk (f : gmap string inode -> gmap string inode) (w : World) : World :=
  mkWorld (f (disk w)) (fds w) (cwd w) (tmpdir w) (tmp_names w) (programs w)
          (fault w) (trace w).

Definition set_fds (f : gmap nat string -> gmap nat string) (w : World) : World :=
  mkWorld (disk w) (f (fds w)) (cwd w) (tmpdir w) (tmp_names w) (programs w)
          (fault w) (trace w).

Definition set_tmp_names (l : list string) (w : World) : World :=
  mkWorld (disk w) (fds w) (cwd w) (tmpdir w) l (programs w) (fault w) (trace w).

Definition log (c : syscall) (w : World) : World :=
  mkWorld (disk w) (fds w) (cwd w) (tmpdir w) (tmp_names w) (programs w)
          (fault w) (trace w ++ [c]).

Module os.

Definition O_RDONLY : Z := 0.
Definition O_WRONLY : Z := 1.
Definition O_RDWR : Z := 2.
Definition O_ACCMODE : Z := 3.
Definition O_CREAT : Z := 64.
Definition O_EXCL : Z := 128.
Definition O_TRUNC : Z := 512.
Definition O_NOFOLLOW : Z := 131072.

Definition S_IFMT : Z := 61440.
Definition S_IFDIR : Z := 16384.
Definition S_IFREG : Z := 32768.
Definition S_IFLNK : Z := 40960.

(** The key under which the driver finds [path] in [disk]. *)
Definition key (w : World) (path : string) : string :=
  let p := posixpath.abspath (cwd w) path in
  if str.startswith p "//" then str.tail p else p.

Definition has (flag flags : Z) : bool := negb (Z.land flags flag =? 0).

Definition writable (flags : Z) : bool := negb (Z.land flags O_ACCMODE =? 0).

(** The call is recorded; the environment may refuse it. *)
Definition sys (c : syscall) : M World unit :=
  fun w =>
    match fault w c with
    | Some e => (Raise (OSError e), log c w)
    | None => (Ok tt, log c w)
    end.

(** The lowest descriptor that is not open. *)
Fixpoint first_free (used : gmap nat string) (fuel n : nat) : nat :=
  match fuel with
  | O => n
  | S fuel' =>
      match used !! n with
      | Some _ => first_free used fuel' (S n)
      | None => n
      end
  end.

Definition lowest_fd (used : gmap nat string) : nat :=
  first_free used (size used) 0.

(** A new descriptor for the inode at [k]. *)
Definition alloc_fd (k : string) : M World nat :=
  fun w =>
    let fd := lowest_fd (fds w) in
    (Ok fd, set_fds (insert fd k) w).

Definition new_file (mode : Z) : inode :=
  Inode (KFile "") mode 1 0 0 0 0 0 0 4096.

Definition set_data (data : string) (i : inode) : inode :=
  Inode (KFile data) (i_perm i) (i_nlink i) (i_uid i) (i_gid i)
        (i_atime i) (i_mtime i) (i_ctime i) (i_dev i) (i_blksize i).

(** [os.open(path, flags, mode)] *)
Definition open (path : string) (flags mode : Z) : M World nat :=
  sys (SysOpen path flags mode) ;;
  w <- get ;;
  let k := key w path in
  match disk w !! k with
  | Some i =>
      if (has O_CREAT flags && has O_EXCL flags)%bool
      then raise (OSError errno.EEXIST)
      else
        match i_kind i with
        | KDir =>
            if writable flags then raise (OSError errno.EISDIR)
            else alloc_fd k
        | KSymlink _ =>
            if has O_NOFOLLOW flags then raise (OSError errno.ELOOP)
            else alloc_fd k
        | KFile _ =>
            (if (has O_TRUNC flags && writable flags)%bool
             then modify (set_disk (insert k (set_data "" i)))
             else ret tt) ;;
            alloc_fd k
        end
  | None =>
      if has O_CREAT flags then
        modify (set_disk (insert k (new_file mode))) ;;
        alloc_fd k
      else raise (OSError errno.ENOENT)
  end.

(** [os.close(fd)] *)
Definition close (fd : nat) : M World unit :=
  sys (SysClose fd) ;;
  w <- get ;;
  match fds w !! fd with
  | Some _ => modify (set_fds (delete fd))
  | None => raise (OSError errno.EBADF)
  end.

(** [os.remove(path)] *)
Definition remove (path : string) : M World unit :=
  sys (SysRemove path) ;;
  w <- get ;;
  let k := key w path in
  match disk w !! k with
  | None => raise (OSError errno.ENOENT)
  | Some i =>
      match i_kind i with
      | KDir => raise (OSError errno.EISDIR)
      | _ => modify (set_disk (delete k))
      end
  end.

(** [data[:length]], padded with NUL bytes when [length] is larger. *)
Fixpoint resize (n : nat) (data : string) : string :=
  match n with
  | O => EmptyString
  | S n' =>
      match data with
      | EmptyString => String Ascii.zero (resize n' EmptyString)
      | String c data' => String c (resize n' data')
      end
  end.

(** [os.ftruncate(fd, length)], what [f.truncate(length)] does. *)
Definition ftruncate (fd : nat) (length : Z) : M World unit :=
  sys (SysFtruncate fd length) ;;
  w <- get ;;
  match fds w !! fd with
  | None => raise (OSError errno.EBADF)
  | Some k =>
      if length <? 0 then raise (OSError errno.EINVAL)
      else
        match disk w !! k with
        | Some i =>
            match i_kind i with
            | KFile data =>
                modify (set_disk
                  (insert k (set_data (resize (Z.to_nat length) data) i)))
            | _ => raise (OSError errno.EINVAL)
            end
        | None => ret tt
        end
  end.

Definition size_of (k : kind) : Z :=
  match k with
  | KFile data => Z.of_nat (String.length data)
  | KDir => 4096
  | KSymlink target => Z.of_nat (String.length target)
  end.

Definition ifmt (k : kind) : Z :=
  match k with
  | KFile _ => S_IFREG
  | KDir => S_IFDIR
  | KSymlink _ => S_IFLNK
  end.

Definition stat_of (i : inode) : stat_result :=
  StatResult (Z.lor (ifmt (i_kind i)) (i_perm i)) (i_dev i) (i_nlink i)
             (i_uid i) (i_gid i) (size_of (i_kind i))
             (i_atime i) (i_mtime i) (i_ctime i) (i_blksize i).

(** [os.lstat(path)]: the inode the path names, a link included. *)
Definition lstat (path : string) : M World stat_result :=
  w <- get ;;
  match disk w !! key w path with
  | Some i => ret (stat_of i)
  | None => raise (OSError errno.ENOENT)
  end.

(** [os.readlink(path)] *)
Definition readlink (path : string) : M World string :=
  w <- get ;;
  match disk w !! key w path with
  | Some i =>
      match i_kind i with
      | KSymlink target => ret target
      | _ => raise (OSError errno.EINVAL)
      end
  | None => raise (OSError errno.ENOENT)
  end.

(** [os.path.isdir(path)] *)
Definition path_isdir (path : string) : M World bool :=
  w <- get ;;
  match disk w !! key w path with
  | Some i => ret (match i_kind i with KDir => true | _ => false end)
  | None => ret false
  end.

Fixpoint has_sep (s : string) : bool :=
  match s with
  | EmptyString => false
  | String c s' => (Ascii.eqb c str.sep || has_sep s')%bool
  end.

Fixpoint strip_prefix (pre s : string) : option string :=
  match pre with
  | EmptyString => Some s
  | String a pre' =>
      match s with
      | EmptyString => None
      | String b s' => if Ascii.eqb a b then strip_prefix pre' s' else None
      end
  end.

(** The name under which the inode at [k] is an entry of the directory
    at [dir]. *)
Definition child_name (dir k : string) : option string :=
  let pre := if str.endswith_sep dir then dir else dir +:+ "/" in
  match strip_prefix pre k with
  | Some name =>
      if (String.eqb name "" || has_sep name)%bool then None else Some name
  | None => None
  end.

(** [os.listdir(path)] *)
Definition listdir (path : string) : M World (list string) :=
  w <- get ;;
  let k := key w path in
  match disk w !! k with
  | Some i =>
      match i_kind i with
      | KDir => ret (omap (child_name k) (map fst (map_to_list (disk w))))
      | _ => raise (OSError 20)
      end
  | None => raise (OSError errno.ENOENT)
  end.

End os.

Module tempfile.

(** [_mkstemp_inner]: draw names until one can be created exclusively;
    a name that exists is skipped, any other failure is raised, and
    [FileExistsError] is raised when the names run out. *)
Fixpoint _mkstemp_inner (dir pre : string) (names : list string)
    : M World (nat * string) :=
  match names with
  | [] => raise (OSError errno.EEXIST)
  | name :: names' =>
      let file := posixpath.join dir (pre +:+ name) in
      modify (set_tmp_names names') ;;
      try_except
        (fd <- os.open file
                 (Z.lor (Z.lor (Z.lor os.O_RDWR os.O_CREAT) os.O_EXCL)
                        os.O_NOFOLLOW) 384 ;;
         ret (fd, file))
        (fun e =>
           if bool_decide (e = OSError errno.EEXIST)
           then _mkstemp_inner dir pre names'
           else raise e)
  end.

(** [tempfile.NamedTemporaryFile(delete=False)]: the descriptor of the new
    file and its [.name]. *)
Definition NamedTemporaryFile : M World (nat * string) :=
  w <- get ;;
  _mkstemp_inner (tmpdir w) "tmp" (tmp_names w).

(** [.name] and [.close()] of the object returned. *)
Definition name (f : nat * string) : string := snd f.

Definition close (f : nat * string) : M World unit := os.close (fst f).

End tempfile.

Module builtins.

(** [with open(path, mode) as f: body f]; [flags] are those of the mode
    string.  The file is closed when the block is left, also by an
    exception. *)
Definition with_open {A} (path : string) (flags : Z)
    (body : nat -> M World A) : M World A :=
  f <- os.open path flags 438 ;;
  try_finally (body f) (os.close f).

(** ["wb"] *)
Definition mode_wb : Z := Z.lor (Z.lor os.O_WRONLY os.O_CREAT) os.O_TRUNC.

(** ["r+"] *)
Definition mode_r_plus : Z := os.O_RDWR.

End builtins.

Module subprocess.

Definition file_content (w : World) (path : string) : option string :=
  match disk w !! os.key w path with
  | Some i => match i_kind i with KFile data => Some data | _ => None end
  | None => None
  end.

(** What the child writes reaches the file behind its standard output. *)
Definition write_stdout (stdout : nat) (out : string) (w : World) : World :=
  match fds w !! stdout with
  | Some k => set_disk (alter (os.set_data out) k) w
  | None => w
  end.

(** [subprocess.run(command, stdout=f_out, check=True)] for a command of
    an executable name and one argument. *)
Definition run (command : list string) (stdout : nat) : M World unit :=
  w <- get ;;
  match programs w !! (default "" (head command)) with
  | None => raise (OSError errno.ENOENT)
  | Some prog =>
      os.sys (SysSpawn command) ;;
      w <- get ;;
      let '(returncode, out) :=
        prog (file_content w (default "" (command !! 1%nat))) in
      modify (write_stdout stdout out) ;;
      if returncode =? 0 then ret tt
      else raise (CalledProcessError returncode)
  end.

End subprocess.

(** ** The class [FATS] *)

Module FATS.

(** The attributes of the object: [self.root] and [self.temp_files]. *)
Record t : Type := mk {
  root : string;
  temp_files : gmap nat string
}.

(** The object and the world it runs in. *)
Record Cfg : Type := mkCfg {
  self : t;
  world : World
}.

Definition lift {A} (m : M World A) : M Cfg A :=
  fun c =>
    match m (world c) with
    | (r, w') => (r, mkCfg (self c) w')
    end.

Definition set_temp_files (f : gmap nat string -> gmap nat string)
    : M Cfg unit :=
  modify (fun c => mkCfg (mk (root (self c)) (f (temp_files (self c))))
                         (world c)).

Definition _full_path (self : t) (partial : string) : string :=
  let partial :=
    if str.startswith partial "/" then str.tail partial else partial in
  let path := posixpath.join (root self) partial in
  path.

(** [getattr(st, key)] on a [stat_result]. *)
Definition stat_getattr (st : stat_result) (key : string) : Z :=
  if String.eqb key "st_atime" then st_atime st
  else if String.eqb key "st_ctime" then st_ctime st
  else if String.eqb key "st_gid" then st_gid st
  else if String.eqb key "st_mode" then st_mode st
  else if String.eqb key "st_mtime" then st_mtime st
  else if String.eqb key "st_nlink" then st_nlink st
  else if String.eqb key "st_size" then st_size st
  else if String.eqb key "st_uid" then st_uid st
  else if String.eqb key "st_dev" then st_dev st
  else st_blksize st.

Definition getattr (path : string) (fh : option nat)
    : M Cfg (list (string * Z)) :=
  c <- get ;;
  let full_path := _full_path (self c) path in
  st <- lift (os.lstat full_path) ;;
  ret (map (fun key => (key, stat_getattr st key))
           ["st_atime"; "st_ctime"; "st_gid"; "st_mode"; "st_mtime";
            "st_nlink"; "st_size"; "st_uid"]).

(** The generator is embedded as the list of the values it yields. *)
Definition readdir (path : string) (fh : nat) : M Cfg (list string) :=
  c <- get ;;
  let full_path := _full_path (self c) path in
  let dirents := ["."; ".."] in
  isdir <- lift (os.path_isdir full_path) ;;
  dirents <- (if isdir : bool
              then (l <- lift (os.listdir full_path) ;; ret (dirents ++ l)%list)
              else ret dirents) ;;
  ret dirents.

Definition readlink (path : string) : M Cfg string :=
  c <- get ;;
  pathname <- lift (os.readlink (_full_path (self c) path)) ;;
  if str.startswith pathname "/" then
    lift_result (posixpath.relpath (cwd (world c)) pathname (root (self c)))
  else
    ret pathname.

Definition open (path : string) (flags : Z) : M Cfg nat :=
  c <- get ;;
  let full_path := _full_path (self c) path in
  temp_fuzzed_path <-
    try_except
      (temp_fuzzed_file <- lift tempfile.NamedTemporaryFile ;;
       let temp_fuzzed_path := tempfile.name temp_fuzzed_file in
       lift (tempfile.close temp_fuzzed_file) ;;
       ret temp_fuzzed_path)
      (fun e => raise (FuseOSError errno.EIO)) ;;
  let command := ["radamsa"; full_path] in
  try_except
    (lift (builtins.with_open temp_fuzzed_path builtins.mode_wb
             (fun f_out => subprocess.run command f_out)))
    (fun e =>
       if is_FileNotFoundError e then
         lift (os.remove temp_fuzzed_path) ;;
         raise (FuseOSError errno.EIO)
       else if (match e with CalledProcessError _ => true | _ => false end) then
         lift (os.remove temp_fuzzed_path) ;;
         raise (FuseOSError errno.EIO)
       else
         lift (os.remove temp_fuzzed_path) ;;
         raise (FuseOSError errno.EIO)) ;;
  fh <- lift (os.open temp_fuzzed_path flags 511) ;;
  set_temp_files (insert fh temp_fuzzed_path) ;;
  ret fh.

Definition create (path : string) (mode : Z) : M Cfg nat :=
  c <- get ;;
  let full_path := _full_path (self c) path in
  lift (os.open full_path (Z.lor os.O_WRONLY os.O_CREAT) mode).

Definition truncate (path : string) (length : Z) (fh : option nat)
    : M Cfg unit :=
  match fh with
  | Some _ => ret tt
  | None =>
      c <- get ;;
      let full_path := _full_path (self c) path in
      lift (builtins.with_open full_path builtins.mode_r_plus
              (fun f => os.ftruncate f length))
  end.

(** [if temp_path:] holds for a path that is not the empty string. *)
Definition truthy (temp_path : option string) : bool :=
  match temp_path with
  | Some p => negb (String.eqb p "")
  | None => false
  end.

Definition release (path : string) (fh : nat) : M Cfg unit :=
  c <- get ;;
  let temp_path := temp_files (self c) !! fh in
  set_temp_files (delete fh) ;;
  (if truthy temp_path then
     try_except
       (lift (os.remove (default "" temp_path)))
       (fun e => if is_OSError e then ret tt else raise e)
   else ret tt) ;;
  lift (os.close fh).

(** [os.unlink] is [os.remove] under its other name. *)
Definition unlink (path : string) : M Cfg unit :=
  c <- get ;;
  lift (os.remove (_full_path (self c) path)).

End FATS.

(** ** The three blocks of [FATS.open]

    [FATS.open] runs three blocks one after the other: the first [try]
    (temporary file), the second [try] (the fuzzer) and the lines after it
    (the native open and the table).  They are named here to be reasoned
    about one at a time; [open_blocks] below shows that [FATS.open] is
    their sequence. *)

Module blocks.

Import FATS.

Definition allocate : M Cfg string :=
  try_except
    (temp_fuzzed_file <- lift tempfile.NamedTemporaryFile ;;
     let temp_fuzzed_path := tempfile.name temp_fuzzed_file in
     lift (tempfile.close temp_fuzzed_file) ;;
     ret temp_fuzzed_path)
    (fun e => raise (FuseOSError errno.EIO)).

Definition cleanup (temp_fuzzed_path : string) (e : exn) : M Cfg unit :=
  if is_FileNotFoundError e then
    lift (os.remove temp_fuzzed_path) ;;
    raise (FuseOSError errno.EIO)
  else if (match e with CalledProcessError _ => true | _ => false end) then
    lift (os.remove temp_fuzzed_path) ;;
    raise (FuseOSError errno.EIO)
  else
    lift (os.remove temp_fuzzed_path) ;;
    raise (FuseOSError errno.EIO).

Definition mutate (temp_fuzzed_path : string) (command : list string)
    : M Cfg unit :=
  try_except
    (lift (builtins.with_open temp_fuzzed_path builtins.mode_wb
             (fun f_out => subprocess.run command f_out)))
    (cleanup temp_fuzzed_path).

Definition serve (temp_fuzzed_path : string) (flags : Z) : M Cfg nat :=
  fh <- lift (os.open temp_fuzzed_path flags 511) ;;
  set_temp_files (insert fh temp_fuzzed_path) ;;
  ret fh.

End blocks.

(** ** Notions of the specification *)

(** What is left of a virtual path once a single leading separator is
    stripped. *)
Definition remainder (partial : string) : string :=
  if str.startswith partial "/" then str.tail partial else partial.

(** The separator [os.path.join] puts after the root. *)
Definition glue (root : string) : string :=
  if (String.eqb root "" || str.endswith_sep root)%bool then "" else "/".

(** The relative path made of the components [rest]. *)
Definition rel_string (rest : list string) : string :=
  match rest with
  | [] => "."
  | _ => str.join rest
  end.

(** Where the driver finds the virtual path [path]. *)
Definition real_path (c : FATS.Cfg) (path : string) : string :=
  os.key (FATS.world c) (FATS._full_path (FATS.self c) path).

(** The kind of file system entry behind the virtual path. *)
Definition node_at (c : FATS.Cfg) (path : string) : option kind :=
  i_kind <$> disk (FATS.world c) !! real_path c path.

(** [p[:p.rfind("/") + 1]]: [p] up to its last separator. *)
Fixpoint upto_last_sep (p : string) : string :=
  match p with
  | EmptyString => EmptyString
  | String c p' =>
      if (Ascii.eqb c str.sep || os.has_sep p')%bool
      then String c (upto_last_sep p')
      else EmptyString
  end.

(** The directory that holds the entry at [p], as [os.path.dirname] names
    it: [p] up to its last separator, without the separators at its end
    unless it is made of separators only. *)
Definition parent (p : string) : string :=
  let head := upto_last_sep p in
  if (negb (String.eqb head "")
      && negb (String.eqb head (str.slashes (String.length head))))%bool
  then str.rstrip head else head.

(** The entries of the directory at [k], as [os.listdir] returns them. *)
Definition children (w : World) (k : string) : list string :=
  omap (os.child_name k) (map fst (map_to_list (disk w))).

(** The parts of the world that no operation changes. *)
Definition same_env (w w' : World) : Prop :=
  cwd w' = cwd w /\ tmpdir w' = tmpdir w /\ programs w' = programs w
  /\ fault w' = fault w.

Definition file_like (i : inode) : Prop :=
  match i_kind i with
  | KFile _ => True
  | _ => False
  end.

(** The content of the regular file at [k], if there is one. *)
Definition content (c : FATS.Cfg) (k : string) : option string :=
  match disk (FATS.world c) !! k with
  | Some i => match i_kind i with KFile data => Some data | _ => None end
  | None => None
  end.

(** *** Handles and artifacts *)

(** Some live handle maps to a path that the driver finds at [k]. *)
Definition handled (c : FATS.Cfg) (k : string) : Prop :=
  exists (fh : nat) (p : string),
    FATS.temp_files (FATS.self c) !! fh = Some p
    /\ os.key (FATS.world c) p = k.

(** A temporary artifact exists at [k]: a file that was not there when the
    file system was mounted with the disk [d0]. *)
Definition artifact_at (d0 : gmap string inode) (c : FATS.Cfg) (k : string)
    : Prop :=
  is_Some (disk (FATS.world c) !! k) /\ d0 !! k = None.

(** The invariant of the data model: an artifact exists exactly when a live
    handle maps to it. *)
Definition corresponds (d0 : gmap string inode) (c : FATS.Cfg) : Prop :=
  forall k : string, artifact_at d0 c k <-> handled c k.

(** The configurations reached from [c0] by [open] and [release] calls;
    [ok] restricts the outcomes of [open] that are followed. *)
Inductive reachable (ok : result nat -> Prop) (c0 : FATS.Cfg)
    : FATS.Cfg -> Prop :=
  | reach_mount : reachable ok c0 c0
  | reach_open c path flags :
      reachable ok c0 c ->
      ok (FATS.open path flags c).1 ->
      reachable ok c0 (FATS.open path flags c).2
  | reach_release c path fh :
      reachable ok c0 c ->
      reachable ok c0 (FATS.release path fh c).2.

Definition any_outcome (r : result nat) : Prop := True.

(** [open] returned a handle or signalled the I/O error. *)
Definition handle_or_eio (r : result nat) : Prop :=
  match r with
  | Ok _ => True
  | Raise e => e = FuseOSError errno.EIO
  end.

(** ** A mounted tree to run the code on *)

Module demo.

Definition file (data : string) : inode :=
  Inode (KFile data) 420 1 1000 1000 0 0 0 0 4096.

Definition dir : inode := Inode KDir 493 2 1000 1000 0 0 0 0 4096.

Definition link (target : string) : inode :=
  Inode (KSymlink target) 511 1 1000 1000 7 8 9 0 4096.

Definition tree : gmap string inode :=
  <["/srv/mirror/a.txt" := file "hello"]>
    (<["/srv/mirror/abs" := link "/srv/mirror/sub/b.txt"]>
       (<["/srv/mirror/rel" := link "sub/b.txt"]>
          (<["/srv/mirror/sub" := dir]>
             (<["/srv/mirror/sub/b.txt" := file "world"]>
                (<["/srv/mirror" := dir]> (<["/tmp" := dir]> ∅)))))).

(** The stub collaborator of the specification: it appends ["!"]. *)
Definition radamsa : program :=
  fun src => (0, default "" src +:+ "!").

Definition world (fault : syscall -> option Z) : World :=
  mkWorld tree ∅ "/home" "/tmp" ["ab12"; "cd34"; "ef56"]
          {[ "radamsa" := radamsa ]} fault [].

Definition no_fault : syscall -> option Z := fun _ => None.

Definition fail (call : syscall) (e : Z) : syscall -> option Z :=
  fun s => if decide (s = call) then Some e else None.

Definition mounted (fault : syscall -> option Z) : FATS.Cfg :=
  FATS.mkCfg (FATS.mk "/srv/mirror" ∅) (world fault).

End demo.

(** *** What the invariant proof needs *)

Import FATS.

(** The driver refuses no deletion and no close. *)
Definition quiet (w : World) : Prop :=
  (forall p, fault w (SysRemove p) = None)
  /\ (forall fd, fault w (SysClose fd) = None).

(** The invariant that [open] and [release] keep: the correspondence of
    the data model, together with what makes it inductive.  The files of
    the mounted tree stay, distinct handles have distinct artifacts, every
    handle of the table is an open descriptor, and every artifact of the
    table is a regular file with a name. *)
Record Inv (c0 c : Cfg) : Prop := mkInv {
  inv_env : same_env (world c0) (world c);
  inv_orig : forall k, is_Some (disk (world c0) !! k) ->
                       is_Some (disk (world c) !! k);
  inv_corr : corresponds (disk (world c0)) c;
  inv_inj : forall fh1 fh2 p1 p2,
      temp_files (self c) !! fh1 = Some p1 ->
      temp_files (self c) !! fh2 = Some p2 ->
      os.key (world c) p1 = os.key (world c) p2 -> fh1 = fh2;
  inv_open : forall fh p,
      temp_files (self c) !! fh = Some p -> is_Some (fds (world c) !! fh);
  inv_file : forall fh p,
      temp_files (self c) !! fh = Some p ->
      p <> "" /\ exists i, disk (world c) !! os.key (world c) p = Some i
                           /\ file_like i
}.

(** What the descriptor-closing step answers. *)
Definition close_reply (w : World) (fh : nat) : result unit :=
  match fault w (SysClose fh) with
  | Some e => Raise (OSError e)
  | None =>
      match fds w !! fh with
      | Some _ => Ok tt
      | None => Raise (OSError errno.EBADF)
      end
  end.

(** The normalised absolute [target] lies under the normalised absolute
    [root], [rest] being its components below the root. *)
Definition extends_root (cwd root target : string) (rest : list string) : Prop :=
  posixpath.tail_list cwd target = (posixpath.tail_list cwd root ++ rest)%list.

(** *** Further notions *)

(** The longest common prefix of two lists of components. *)
Fixpoint lcp (a b : list string) : list string :=
  match a, b with
  | x :: a', y :: b' => if String.eqb x y then x :: lcp a' b' else []
  | _, _ => []
  end.

(** The components [relpath] answers with: one [..] for each component of
    [start_list] outside the common prefix, then what is left of
    [path_list]. *)
Definition climb (start_list path_list : list string) : list string :=
  (replicate (length start_list - length (lcp start_list path_list))%nat ".."
   ++ drop (length (lcp start_list path_list)) path_list)%list.

(** No entry of the disk is a symbolic link. *)
Definition is_link (i : inode) : bool :=
  match i_kind i with
  | KSymlink _ => true
  | _ => false
  end.

Definition no_links (w : World) : Prop :=
  map_Forall (fun _ i => is_link i = false) (disk w).

(** The flags are an access mode and nothing else. *)
Definition access_mode_only (flags : Z) : Prop :=
  flags = os.O_RDONLY \/ flags = os.O_WRONLY \/ flags = os.O_RDWR.

(** The fuzzer cannot succeed: it is not installed, or it exits with a
    status other than 0 whatever it reads. *)
Definition fuzzer_unusable (w : World) : Prop :=
  forall prog : program,
    programs w !! "radamsa" = Some prog ->
    forall src : option string, (prog src).1 <> 0.

(** The driver refuses none of the three calls of a path-only
    [truncate]: the open, the truncation and the close of the descriptor
    the open returns. *)
Definition truncate_quiet (c : Cfg) (path : string) (length : Z) : Prop :=
  let full_path := _full_path (self c) path in
  let f := os.lowest_fd (fds (world c)) in
  fault (world c) (SysOpen full_path builtins.mode_r_plus 438) = None
  /\ fault (world c) (SysFtruncate f length) = None
  /\ fault (world c) (SysClose f) = None.

(** ** More mounted trees *)

Module scenes.

(** The mount of [demo] with other executables on the search path. *)
Definition with_programs (programs : gmap string program) : FATS.Cfg :=
  let w := demo.world demo.no_fault in
  FATS.mkCfg (FATS.mk "/srv/mirror" ∅)
    (mkWorld (disk w) (fds w) (cwd w) (tmpdir w) (tmp_names w) programs
             (fault w) (trace w)).

(** No fuzzer is installed. *)
Definition without_fuzzer : FATS.Cfg := with_programs ∅.

(** The fuzzer writes two bytes and exits with status 1. *)
Definition failing_fuzzer : FATS.Cfg :=
  with_programs {[ "radamsa" := (fun _ => (1, "xx")) : program ]}.

(** The mount of [demo] with one more inode on the disk. *)
Definition with_inode (k : string) (i : inode) : FATS.Cfg :=
  let w := demo.world demo.no_fault in
  FATS.mkCfg (FATS.mk "/srv/mirror" ∅)
    (mkWorld (<[k := i]> (disk w)) (fds w) (cwd w) (tmpdir w) (tmp_names w)
             (programs w) (fault w) (trace w)).

(** A link of the tree that points outside of it. *)
Definition outside_link : FATS.Cfg :=
  with_inode "/srv/mirror/out" (demo.link "/etc/passwd").

(** The mount of [demo] on another disk. *)
Definition with_disk (d : gmap string inode) : FATS.Cfg :=
  let w := demo.world demo.no_fault in
  FATS.mkCfg (FATS.mk "/srv/mirror" ∅)
    (mkWorld d (fds w) (cwd w) (tmpdir w) (tmp_names w) (programs w)
             (fault w) (trace w)).

(** The tree of [demo] without its two links. *)
Definition plain : FATS.Cfg :=
  with_disk (delete "/srv/mirror/abs" (delete "/srv/mirror/rel" demo.tree)).

End scenes.

(** Two handles on the same file. *)
Definition two_opens : Cfg :=
  (FATS.open "/a.txt" os.O_RDONLY
     (FATS.open "/a.txt" os.O_RDONLY (demo.mounted demo.no_fault)).2).2.

(** * Properties *)

(** ** The path functions on examples *)

Example normpath_ex1 : posixpath.normpath "/srv//mirror/./a/../b/" = "/srv/mirror/b".
Proof. reflexivity. Qed.

Example normpath_ex2 : posixpath.normpath "//x/../../y" = "//y".
Proof. reflexivity. Qed.

Example normpath_ex3 : posixpath.normpath "a/../../b" = "../b".
Proof. reflexivity. Qed.

Example relpath_ex1 :
  posixpath.relpath "/home" "/srv/mirror/a/b" "/srv/mirror" = Ok "a/b".
Proof. reflexivity. Qed.

Example relpath_ex2 :
  posixpath.relpath "/home" "/etc/passwd" "/srv/mirror" = Ok "../../etc/passwd".
Proof. reflexivity. Qed.

Example relpath_ex3 : posixpath.relpath "/home" "/home/data" "data" = Ok ".".
Proof. reflexivity. Qed.

Example full_path_ex1 : _full_path (mk "/srv/mirror" ∅) "/sub/b.txt" = "/srv/mirror/sub/b.txt".
Proof. reflexivity. Qed.

Example full_path_ex2 : _full_path (mk "/srv/mirror" ∅) "/" = "/srv/mirror/".
Proof. reflexivity. Qed.

Example key_ex1 : os.key (demo.world demo.no_fault) "/srv/mirror/" = "/srv/mirror".
Proof. reflexivity. Qed.

Example parent_ex1 : parent "/srv/mirror/new.txt" = "/srv/mirror".
Proof. reflexivity. Qed.

Example parent_ex2 : parent "/a.txt" = "/".
Proof. reflexivity. Qed.

Example parent_ex3 : parent "a//b" = "a".
Proof. reflexivity. Qed.

Example parent_ex4 : parent "name" = "".
Proof. reflexivity. Qed.

(** ** Tactics *)

Ltac monad_unfold :=
  unfold bind, ret, raise, get, modify, try_except, try_finally, lift_result,
    FATS.lift, FATS.set_temp_files in *.

Ltac release_fin :=
  intros; simplify_eq/=; rewrite <- ?app_assoc; try done;
  try (symmetry; by apply delete_id);
  try (match goal with H : is_Some _ |- _ => destruct H as [? ?]; congruence end);
  try (unfold os.key in *; simpl in *; congruence).

(** ** PathMapper *)

Lemma prefix_app (a b : string) : String.prefix a (a +:+ b) = true.
Proof.
  induction a as [|c a IH]; simpl.
  - by destruct b.
  - destruct (ascii_dec c c); [done | congruence].
Qed.

Lemma remainder_strips_one (s : string) : remainder ("/" +:+ s) = s.
Proof.
  unfold remainder, str.startswith. simpl.
  destruct (ascii_dec "/" "/"); [by destruct s | congruence].
Qed.

(** Claim C8 as stated fails: a virtual path that begins with two separators
    keeps one of them after the strip, [os.path.join] then drops the root,
    and the result is not under MirrorRoot. *)
Lemma full_path_double_separator_leaves_root :
  _full_path (mk "/srv/mirror" ∅) "//etc/passwd" = "/etc/passwd"
  /\ str.startswith (_full_path (mk "/srv/mirror" ∅) "//etc/passwd")
       "/srv/mirror" = false.
Proof. vm_compute. done. Qed.

(** Claim C8, amended.  [_full_path] is total; it strips a single leading
    separator and joins the remainder with the root.  When the remainder
    does not itself begin with a separator, the result is the root, the
    separator (left out when the root is empty or ends in one) and the
    remainder, so it begins with MirrorRoot; no existence of the target is
    involved. *)
Theorem full_path_under_root (self : FATS.t) (partial : string) :
  str.startswith (remainder partial) "/" = false ->
  FATS._full_path self partial
    = FATS.root self +:+ glue (FATS.root self) +:+ remainder partial
  /\ str.startswith (FATS._full_path self partial) (FATS.root self) = true.
Proof.
  intros Hrel.
  assert (FATS._full_path self partial
          = FATS.root self +:+ glue (FATS.root self) +:+ remainder partial) as ->.
  { unfold FATS._full_path, posixpath.join, glue. fold (remainder partial).
    rewrite Hrel. by destruct (_ || _)%bool. }
  split; [done | apply prefix_app].
Qed.

Lemma full_path_under_root_witness :
  str.startswith (remainder "/a.txt") "/" = false
  /\ (_full_path (mk "/srv/mirror" ∅) "/a.txt"
      = "/srv/mirror" +:+ glue "/srv/mirror" +:+ remainder "/a.txt"
      /\ str.startswith (_full_path (mk "/srv/mirror" ∅) "/a.txt")
           "/srv/mirror" = true).
Proof.
  split; [reflexivity|].
  apply (full_path_under_root (mk "/srv/mirror" ∅) "/a.txt"). reflexivity.
Defined.

(** ** readlink *)

Lemma list_lt_app_false (a r : list string) : posixpath.list_lt (a ++ r) a = false.
Proof.
  induction a as [|x a IH]; simpl.
  - by destruct r.
  - by rewrite String.eqb_refl.
Qed.

Lemma commonprefix_loop_app (a r : list string) :
  posixpath.commonprefix_loop a (a ++ r) = Ok a.
Proof.
  induction a as [|x a IH]; simpl; [done|].
  by rewrite String.eqb_refl, IH.
Qed.

(** The common prefix of the components of the root and of a path under
    it is the root. *)
Lemma commonprefix_app (a r : list string) :
  posixpath.commonprefix a (a ++ r) = Ok a.
Proof.
  unfold posixpath.commonprefix. rewrite list_lt_app_false.
  destruct (posixpath.list_lt a (a ++ r)).
  - apply commonprefix_loop_app.
  - rewrite <- (app_nil_r a) at 2. apply commonprefix_loop_app.
Qed.

Lemma relpath_inside cwd path start rest :
  path <> "" ->
  extends_root cwd start path rest ->
  posixpath.relpath cwd path start = Ok (rel_string rest).
Proof.
  unfold extends_root. intros Hne Hin. unfold posixpath.relpath.
  destruct (String.eqb_spec path ""); [done|].
  rewrite Hin, commonprefix_app. cbv zeta.
  rewrite Nat.sub_diag, drop_app_length. simpl.
  destruct rest; [done|]. by rewrite bool_decide_eq_false_2.
Qed.

(** Claim C6.  For a symbolic link whose stored target is relative,
    [readlink] returns the target unchanged.  For one whose stored target is
    absolute and inside MirrorRoot (its normalised components are those of
    the root followed by [rest]), [readlink] returns the target rewritten
    relative to MirrorRoot: the components [rest] joined by the separator,
    or ["."] when the target is the root itself.  Nothing is changed. *)
Theorem readlink_relative_to_root (c : FATS.Cfg) (path target : string) :
  node_at c path = Some (KSymlink target) ->
  (str.startswith target "/" = false ->
     FATS.readlink path c = (Ok target, c))
  /\ (forall rest : list string,
        str.startswith target "/" = true ->
        extends_root (cwd (FATS.world c)) (FATS.root (FATS.self c)) target
          rest ->
        FATS.readlink path c = (Ok (rel_string rest), c)).
Proof.
  unfold node_at, real_path. intros Hnode.
  destruct (disk (FATS.world c) !! _) as [i|] eqn:Hi; [|done].
  simpl in Hnode. injection Hnode as Hk.
  assert (FATS.lift (os.readlink (FATS._full_path (FATS.self c) path)) c
          = (Ok target, c)) as Hread.
  { unfold FATS.lift, os.readlink. monad_unfold. rewrite Hi, Hk. by destruct c. }
  split.
  - intros Hrel. unfold FATS.readlink.
    unfold bind at 1. unfold get at 1. unfold bind. rewrite Hread, Hrel. done.
  - intros rest Habs Hin. unfold FATS.readlink.
    unfold bind at 1. unfold get at 1. unfold bind. rewrite Hread, Habs.
    unfold lift_result. rewrite (relpath_inside _ _ _ rest); [done| |done].
    intros ->. done.
Qed.

Lemma readlink_witness :
  node_at (demo.mounted demo.no_fault) "/abs"
    = Some (KSymlink "/srv/mirror/sub/b.txt")
  /\ node_at (demo.mounted demo.no_fault) "/rel" = Some (KSymlink "sub/b.txt")
  /\ readlink "/abs" (demo.mounted demo.no_fault)
     = (Ok "sub/b.txt", demo.mounted demo.no_fault)
  /\ readlink "/rel" (demo.mounted demo.no_fault)
     = (Ok "sub/b.txt", demo.mounted demo.no_fault).
Proof.
  assert (node_at (demo.mounted demo.no_fault) "/abs"
          = Some (KSymlink "/srv/mirror/sub/b.txt")) as Habs
    by (vm_compute; reflexivity).
  assert (node_at (demo.mounted demo.no_fault) "/rel"
          = Some (KSymlink "sub/b.txt")) as Hrel
    by (vm_compute; reflexivity).
  split; [exact Habs|]. split; [exact Hrel|]. split.
  - apply (proj2 (readlink_relative_to_root _ _ _ Habs) ["sub"; "b.txt"]);
      vm_compute; reflexivity.
  - apply (proj1 (readlink_relative_to_root _ _ _ Hrel)). reflexivity.
Defined.

(** ** readdir and getattr *)

(** Claim C7.  On a directory, [readdir] yields a finite sequence: ["."],
    then [".."], then exactly the entries of the resolved directory (every
    name under which an inode of the disk is a direct child of it, and
    nothing else). *)
Theorem readdir_dots_then_children (c : FATS.Cfg) (path : string) (fh : nat) :
  node_at c path = Some KDir ->
  FATS.readdir path fh c
    = (Ok ("." :: ".." :: children (FATS.world c) (real_path c path)), c)
  /\ (forall name : string,
        name ∈ children (FATS.world c) (real_path c path) <->
        exists k, is_Some (disk (FATS.world c) !! k)
                  /\ os.child_name (real_path c path) k = Some name).
Proof.
  unfold node_at, real_path. intros Hnode.
  destruct (disk (FATS.world c) !! _) as [i|] eqn:Hi; [|done].
  simpl in Hnode. injection Hnode as Hk. split.
  - unfold FATS.readdir, os.path_isdir, os.listdir. monad_unfold.
    rewrite Hi, Hk. simpl. rewrite Hi, Hk. by destruct c.
  - intros name. unfold children. rewrite list_elem_of_omap. split.
    + intros (k & Hin & Hc). exists k. split; [|done].
      apply list_elem_of_fmap in Hin as ([k' x] & -> & Hin).
      apply elem_of_map_to_list in Hin. by exists x.
    + intros (k & [x Hx] & Hc). exists k. split; [|done].
      apply list_elem_of_fmap. exists (k, x). split; [done|].
      by apply elem_of_map_to_list.
Qed.

Lemma readdir_witness :
  node_at (demo.mounted demo.no_fault) "/" = Some KDir
  /\ readdir "/" 0 (demo.mounted demo.no_fault)
     = (Ok ["."; ".."; "sub"; "a.txt"; "abs"; "rel"], demo.mounted demo.no_fault).
Proof.
  assert (node_at (demo.mounted demo.no_fault) "/" = Some KDir) as Hdir
    by (vm_compute; reflexivity).
  split; [exact Hdir|].
  rewrite (proj1 (readdir_dots_then_children _ "/" 0 Hdir)).
  vm_compute. reflexivity.
Defined.

(** Claim C10.  [getattr] stats the resolved path with [lstat]: on a
    symbolic link the dictionary describes the link itself (the mode has
    the type [S_IFLNK] with the permissions of the link, the size is the
    length of the stored target, owner, link count and times are the
    link's), whatever the target is or points to. *)
Theorem getattr_lstat_link (c : FATS.Cfg) (path target : string) (fh : option nat)
    (i : inode) :
  disk (FATS.world c) !! real_path c path = Some i ->
  i_kind i = KSymlink target ->
  FATS.getattr path fh c
    = (Ok [("st_atime", i_atime i); ("st_ctime", i_ctime i);
           ("st_gid", i_gid i); ("st_mode", Z.lor os.S_IFLNK (i_perm i));
           ("st_mtime", i_mtime i); ("st_nlink", i_nlink i);
           ("st_size", Z.of_nat (String.length target)); ("st_uid", i_uid i)],
       c).
Proof.
  unfold real_path. intros Hi Hk.
  unfold FATS.getattr, os.lstat. monad_unfold. rewrite Hi. simpl.
  unfold os.stat_of. rewrite Hk. simpl. by destruct c.
Qed.

Lemma getattr_witness :
  disk (world (demo.mounted demo.no_fault))
    !! real_path (demo.mounted demo.no_fault) "/abs"
  = Some (demo.link "/srv/mirror/sub/b.txt")
  /\ getattr "/abs" None (demo.mounted demo.no_fault)
     = (Ok [("st_atime", 7); ("st_ctime", 9); ("st_gid", 1000);
            ("st_mode", 41471); ("st_mtime", 8); ("st_nlink", 1);
            ("st_size", 21); ("st_uid", 1000)],
        demo.mounted demo.no_fault).
Proof.
  assert (disk (world (demo.mounted demo.no_fault))
            !! real_path (demo.mounted demo.no_fault) "/abs"
          = Some (demo.link "/srv/mirror/sub/b.txt")) as Hl
    by (vm_compute; reflexivity).
  split; [exact Hl|].
  apply (getattr_lstat_link _ "/abs" "/srv/mirror/sub/b.txt" None _ Hl).
  reflexivity.
Defined.

(** ** The driver calls *)

(** Among the descriptors from [n] on, at most [fuel] are open: the search
    ends on one that is not. *)
Lemma first_free_None (used : gmap nat string) fuel n :
  (size (filter (λ kv, (n ≤ kv.1)%nat) used) ≤ fuel)%nat →
  used !! os.first_free used fuel n = None.
Proof.
  revert n. induction fuel as [|fuel IH]; intros n Hsz; simpl.
  - destruct (used !! n) as [v|] eqn:Hn; [|done].
    assert (filter (λ kv, (n ≤ kv.1)%nat) used !! n = Some v) as Hf
      by (apply map_lookup_filter_Some; split; [done | simpl; lia]).
    assert (size (filter (λ kv, (n ≤ kv.1)%nat) used) = 0)%nat as H0 by lia.
    apply map_size_empty_iff in H0. rewrite H0 in Hf. by rewrite lookup_empty in Hf.
  - destruct (used !! n) as [v|] eqn:Hn; [|done].
    apply IH.
    assert (filter (λ kv, (S n ≤ kv.1)%nat) used
            ⊆ delete n (filter (λ kv, (n ≤ kv.1)%nat) used)) as Hsub.
    { apply map_subseteq_spec. intros i x Hi.
      apply map_lookup_filter_Some in Hi as [Hi Hle]. simpl in Hle.
      rewrite lookup_delete_ne by lia.
      apply map_lookup_filter_Some. split; [done | simpl; lia]. }
    apply map_subseteq_size in Hsub.
    rewrite map_size_delete_Some in Hsub.
    + lia.
    + exists v. apply map_lookup_filter_Some. split; [done | simpl; lia].
Qed.

Lemma lowest_fd_fresh (used : gmap nat string) : used !! os.lowest_fd used = None.
Proof.
  apply first_free_None. apply map_subseteq_size, map_filter_subseteq.
Qed.

Lemma same_env_refl w : same_env w w.
Proof. by repeat split. Qed.

Lemma same_env_trans w1 w2 w3 : same_env w1 w2 -> same_env w2 w3 -> same_env w1 w3.
Proof. unfold same_env. intros (?&?&?&?) (?&?&?&?). repeat split; congruence. Qed.

Lemma same_env_key w w' p : same_env w w' -> os.key w' p = os.key w p.
Proof. intros (Hc&_). unfold os.key. by rewrite Hc. Qed.

Lemma key_log c w p : os.key (log c w) p = os.key w p.
Proof. done. Qed.

Lemma same_env_set_tmp_names l w : same_env w (set_tmp_names l w).
Proof. by repeat split. Qed.

Lemma quiet_same_env w w' : same_env w w' -> quiet w -> quiet w'.
Proof. intros (_&_&_&Hf) Hq. unfold quiet. by rewrite Hf. Qed.

Lemma file_like_set_data data i : file_like (os.set_data data i).
Proof. done. Qed.

Lemma os_open_spec path flags mode w r w' :
  os.open path flags mode w = (r, w') ->
  same_env w w'
  /\ match r with
     | Raise e =>
         disk w' = disk w /\ fds w' = fds w /\ exists n, e = OSError n
     | Ok fd =>
         fds w !! fd = None
         /\ fds w' = <[fd := os.key w path]> (fds w)
         /\ match disk w !! os.key w path with
            | None => disk w' = <[os.key w path := os.new_file mode]> (disk w)
            | Some i =>
                (os.has os.O_CREAT flags && os.has os.O_EXCL flags)%bool = false
                /\ (disk w' = disk w
                    \/ (file_like i
                        /\ disk w' = <[os.key w path := os.set_data "" i]> (disk w)))
            end
     end.
Proof.
  unfold os.open, os.sys, os.alloc_fd. monad_unfold. simpl.
  intros H. unfold file_like.
  destruct (fault w _); simplify_eq/=; [by repeat split; eauto|].
  rewrite ?key_log in H.
  destruct (disk w !! os.key w path) as [i|] eqn:Hi.
  - destruct (os.has os.O_CREAT flags && os.has os.O_EXCL flags)%bool eqn:Hx;
      simplify_eq/=; [by repeat split; eauto|].
    destruct (i_kind i) eqn:Hk; repeat (case_match; simplify_eq/=);
      repeat split; eauto 10 using lowest_fd_fresh.
  - repeat (case_match; simplify_eq/=);
      repeat split; eauto 10 using lowest_fd_fresh.
Qed.

Lemma os_close_spec fd w r w' :
  os.close fd w = (r, w') ->
  same_env w w' /\ disk w' = disk w
  /\ match r with
     | Ok _ => fds w' = delete fd (fds w)
     | Raise e =>
         fds w' = fds w
         /\ (exists n, e = OSError n)
         /\ (fault w (SysClose fd) = None -> fds w !! fd = None)
     end.
Proof.
  unfold os.close, os.sys. monad_unfold. simpl. intros H.
  repeat (case_match; simplify_eq/=); repeat split; eauto; done.
Qed.

Lemma os_remove_spec path w r w' :
  os.remove path w = (r, w') ->
  same_env w w' /\ fds w' = fds w
  /\ match r with
     | Ok _ => disk w' = delete (os.key w path) (disk w)
     | Raise e =>
         disk w' = disk w
         /\ (exists n, e = OSError n)
         /\ (fault w (SysRemove path) = None ->
             forall i, disk w !! os.key w path = Some i -> ~ file_like i)
     end.
Proof.
  unfold os.remove, os.sys, file_like. monad_unfold. simpl. intros H.
  destruct (fault w _); simplify_eq/=; [by repeat split; eauto|].
  rewrite ?key_log in H.
  repeat (case_match; simplify_eq/=); repeat split; eauto; try done.
  intros _ i' Hi'. simplify_eq/=. rewrite H1. tauto.
Qed.

Lemma subprocess_run_spec command fd w r w' :
  subprocess.run command fd w = (r, w') ->
  same_env w w' /\ fds w' = fds w
  /\ (disk w' = disk w
      \/ exists k out,
           fds w !! fd = Some k /\ disk w' = alter (os.set_data out) k (disk w)).
Proof.
  unfold subprocess.run, subprocess.write_stdout, os.sys. monad_unfold. simpl.
  intros H.
  repeat (case_match; simplify_eq/=); repeat split; eauto; try done.
Qed.

(** A temporary file is created under a name that was free, or nothing is
    created. *)
Lemma mkstemp_inner_spec dir pre names w r w' :
  tempfile._mkstemp_inner dir pre names w = (r, w') ->
  same_env w w'
  /\ match r with
     | Ok f =>
         (exists name, f.2 = posixpath.join dir (pre +:+ name))
         /\ disk w !! os.key w f.2 = None
         /\ disk w' = <[os.key w f.2 := os.new_file 384]> (disk w)
         /\ fds w !! f.1 = None
         /\ fds w' = <[f.1 := os.key w f.2]> (fds w)
     | Raise e => disk w' = disk w /\ fds w' = fds w
     end.
Proof.
  revert w. induction names as [|name names IH]; intros w; simpl.
  - unfold raise. intros [= <- <-]. by repeat split.
  - unfold bind at 1, modify at 1, try_except, bind, ret.
    set (w1 := set_tmp_names names w).
    set (file := posixpath.join dir (pre +:+ name)).
    destruct (os.open file _ 384 w1) as [[fd|e] w2] eqn:Hopen;
      apply os_open_spec in Hopen as (Henv & Hopen).
    + intros [= <- <-]. simpl.
      destruct Hopen as (Hfd & Hfds & Hdisk).
      change (os.key w1 file) with (os.key w file) in *.
      change (disk w1) with (disk w) in *. change (fds w1) with (fds w) in *.
      destruct (disk w !! os.key w file) as [i|] eqn:Hi.
      * destruct Hdisk as [Hx _]. by vm_compute in Hx.
      * split; [eapply same_env_trans; [apply same_env_set_tmp_names|done]|].
        by eauto 10.
    + destruct Hopen as (Hdisk & Hfds & _).
      case_bool_decide as He.
      * intros Hrec. apply IH in Hrec as (Henv' & Hrec).
        split.
        { eapply same_env_trans; [apply same_env_set_tmp_names|].
          eapply same_env_trans; done. }
        destruct r as [f|e']; rewrite ?(same_env_key w1 w2) in Hrec by done;
          rewrite Hdisk, Hfds in Hrec; done.
      * unfold raise. intros [= <- <-].
        split; [eapply same_env_trans; [apply same_env_set_tmp_names|done]|].
        done.
Qed.

(** ** release *)

(** Claim C3.  [release] removes the entry of the handle from the table
    as part of the lookup.  When an entry with a path was present, the
    deletion of the artifact is attempted, and it deletes the artifact
    unless the driver refuses.  Whatever the deletion did, and also when no
    entry was found, the close of the handle is the last call made; unless
    the driver refuses it, the descriptor is closed, and the call succeeds
    when the descriptor was open: a failed deletion is not fatal. *)
Theorem release_pops_deletes_closes (c : Cfg) (path : string) (fh : nat) :
  let r := (release path fh c).1 in
  let c' := (release path fh c).2 in
  let w := world c in
  let w' := world c' in
  temp_files (self c') = delete fh (temp_files (self c))
  /\ last (trace w') = Some (SysClose fh)
  /\ (fault w (SysClose fh) = None -> fds w' = delete fh (fds w))
  /\ (fault w (SysClose fh) = None -> is_Some (fds w !! fh) -> r = Ok tt)
  /\ (forall p : string,
        temp_files (self c) !! fh = Some p -> p <> "" ->
        trace w' = (trace w ++ [SysRemove p; SysClose fh])%list
        /\ (forall i : inode,
              fault w (SysRemove p) = None ->
              disk w !! os.key w p = Some i -> i_kind i <> KDir ->
              disk w' = delete (os.key w p) (disk w)))
  /\ (temp_files (self c) !! fh = None ->
        trace w' = (trace w ++ [SysClose fh])%list /\ disk w' = disk w).
Proof.
  destruct c as [[rt tf] w0]. simpl.
  unfold release, os.remove, os.close, os.sys, truthy. monad_unfold. simpl.
  destruct (tf !! fh) as [p|] eqn:Hp; simpl;
    [destruct (String.eqb_spec p "") as [->|Hne]; simpl|];
    repeat (case_match; simplify_eq/=); rewrite ?last_snoc;
    repeat split; release_fin.
Qed.

Lemma release_witness :
  let c0 := demo.mounted (demo.fail (SysRemove "/tmp/tmpab12") errno.EACCES) in
  let c := (FATS.open "/a.txt" os.O_RDONLY c0).2 in
  temp_files (self c) !! 0%nat = Some "/tmp/tmpab12"
  /\ fault (world c) (SysClose 0) = None
  /\ is_Some (fds (world c) !! 0%nat)
  /\ temp_files (self (release "/a.txt" 0 c).2) = delete 0%nat (temp_files (self c))
  /\ (release "/a.txt" 0 c).1 = Ok tt
  /\ fds (world (release "/a.txt" 0 c).2) = delete 0%nat (fds (world c))
  /\ trace (world (release "/a.txt" 0 c).2)
     = (trace (world c) ++ [SysRemove "/tmp/tmpab12"; SysClose 0])%list.
Proof.
  intros c0 c.
  assert (temp_files (self c) !! 0%nat = Some "/tmp/tmpab12") as Hl
    by (vm_compute; reflexivity).
  assert (fault (world c) (SysClose 0) = None) as Hf by reflexivity.
  assert (is_Some (fds (world c) !! 0%nat)) as Hfd
    by (eexists; vm_compute; reflexivity).
  destruct (release_pops_deletes_closes c "/a.txt" 0)
    as (Htf & _ & Hfds & Hr & Hdel & _).
  split; [exact Hl|]. split; [exact Hf|]. split; [exact Hfd|].
  split; [exact Htf|]. split; [exact (Hr Hf Hfd)|]. split; [exact (Hfds Hf)|].
  apply (Hdel _ Hl). discriminate.
Defined.

(** [release] of a handle that the table does not hold only closes it. *)
Lemma release_untracked c path fh :
  temp_files (self c) !! fh = None ->
  (release path fh c).1 = close_reply (world c) fh
  /\ trace (world (release path fh c).2) = (trace (world c) ++ [SysClose fh])%list
  /\ disk (world (release path fh c).2) = disk (world c)
  /\ temp_files (self (release path fh c).2) = temp_files (self c).
Proof.
  destruct c as [[rt tf] w]. simpl. intros Hp.
  unfold release, os.close, os.sys, truthy, close_reply. monad_unfold. simpl.
  rewrite Hp. simpl.
  repeat (case_match; simplify_eq/=); repeat split; release_fin;
    by apply delete_id.
Qed.

Lemma release_closed c path fh :
  temp_files (self (release path fh c).2) !! fh = None
  /\ fault (world (release path fh c).2) = fault (world c)
  /\ (fault (world c) (SysClose fh) = None ->
      fds (world (release path fh c).2) !! fh = None).
Proof.
  destruct c as [[rt tf] w]. simpl.
  unfold release, os.remove, os.close, os.sys, truthy. monad_unfold. simpl.
  repeat (case_match; simplify_eq/=); repeat split; intros;
    rewrite ?lookup_delete_eq; simplify_eq/=; done.
Qed.

(** Claim C4 as stated fails in its second half.  After [open] has
    returned handle [0] and a first [release] has completed, a second
    [release] of that handle does not return: it ends by raising
    [OSError(EBADF)], the answer of the driver to the close of a descriptor
    that the first call closed. *)
Lemma release_second_call_raises :
  let c1 := (FATS.open "/a.txt" os.O_RDONLY (demo.mounted demo.no_fault)).2 in
  let c2 := (release "/a.txt" 0 c1).2 in
  (FATS.open "/a.txt" os.O_RDONLY (demo.mounted demo.no_fault)).1 = Ok 0%nat
  /\ (release "/a.txt" 0 c1).1 = Ok tt
  /\ (release "/a.txt" 0 c2).1 = Raise (OSError errno.EBADF)
  /\ (release "/a.txt" 0 c2).1 <> Ok tt.
Proof. vm_compute. repeat split; done. Qed.

(** Claim C4, amended.  A second [release] of a handle, after a first
    one, does not attempt to delete the artifact again: the lookup of the
    first call removed the entry, so the only call the second one makes to
    the driver is the close.  The disk and the table are as the first call
    left them.  The second call does not return normally: it raises the
    [OSError] of that close, with the errno the driver refuses closes of
    this handle with, and [EBADF] otherwise, the descriptor being closed
    already. *)
Theorem release_twice_deletes_once (c : Cfg) (path : string) (fh : nat) :
  let c1 := (release path fh c).2 in
  let r2 := (release path fh c1).1 in
  let c2 := (release path fh c1).2 in
  trace (world c2) = (trace (world c1) ++ [SysClose fh])%list
  /\ disk (world c2) = disk (world c1)
  /\ temp_files (self c2) = temp_files (self c1)
  /\ r2 = Raise (OSError (default errno.EBADF (fault (world c) (SysClose fh)))).
Proof.
  intros c1 r2 c2. subst r2 c2.
  destruct (release_closed c path fh) as (Htf & Hfault & Hfd).
  fold c1 in Htf, Hfault, Hfd.
  destruct (release_untracked c1 path fh Htf) as (Hr & Htr & Hd & Ht).
  split; [done|]. split; [done|]. split; [done|].
  rewrite Hr. unfold close_reply. rewrite Hfault.
  destruct (fault (world c) (SysClose fh)) as [e|] eqn:He; [done|].
  by rewrite Hfd.
Qed.

(** ** create and truncate *)




(** The branch of [truncate] for a handle is [pass]. *)
Lemma truncate_by_handle_noop c path length fh :
  truncate path length (Some fh) c = (Ok tt, c).
Proof. done. Qed.

(** The branch of [truncate] without a handle cuts (or pads) the real
    file behind the virtual path to the given length. *)
Lemma truncate_by_path c path length i data :
  length >= 0 ->
  (forall s, fault (world c) s = None) ->
  disk (world c) !! real_path c path = Some i -> i_kind i = KFile data ->
  (truncate path length None c).1 = Ok tt
  /\ disk (world (truncate path length None c).2)
     = <[real_path c path :=
           os.set_data (os.resize (Z.to_nat length) data) i]> (disk (world c))
  /\ fds (world (truncate path length None c).2) = fds (world c).
Proof.
  destruct c as [[rt tf] w]. unfold real_path. simpl. intros Hlen Hq Hi Hk.
  unfold truncate, builtins.with_open, os.open, os.ftruncate, os.close, os.sys,
    os.alloc_fd.
  monad_unfold. simpl. rewrite !Hq. simpl. rewrite !key_log.
  set (k := os.key w _) in *. rewrite Hi, Hk. simpl.
  assert ((length <? 0) = false) as Hl by lia.
  repeat (progress (rewrite ?Hq, ?lookup_insert_eq, ?Hi, ?Hk, ?Hl; simpl)).
  repeat split. apply delete_insert_id, lowest_fd_fresh.
Qed.

(** Claim C5 fails on the code.  After [open] has bound handle [0] to the
    artifact [/tmp/tmpab12] holding ["hello!"], [truncate] to length 2 with
    that handle returns normally, calls the driver not at all and leaves
    the six bytes of the artifact in place. *)
Theorem truncate_by_handle_changes_nothing :
  let c := (FATS.open "/a.txt" os.O_RDWR (demo.mounted demo.no_fault)).2 in
  (FATS.open "/a.txt" os.O_RDWR (demo.mounted demo.no_fault)).1 = Ok 0%nat
  /\ temp_files (self c) !! 0%nat = Some "/tmp/tmpab12"
  /\ content c "/tmp/tmpab12" = Some "hello!"
  /\ (truncate "/a.txt" 2 (Some 0%nat) c).1 = Ok tt
  /\ content (truncate "/a.txt" 2 (Some 0%nat) c).2 "/tmp/tmpab12"
     = Some "hello!"
  /\ trace (world (truncate "/a.txt" 2 (Some 0%nat) c).2) = trace (world c).
Proof. vm_compute. done. Qed.

(** ** open *)

Lemma open_blocks path flags c :
  FATS.open path flags c
  = bind blocks.allocate
      (fun temp =>
         bind (blocks.mutate temp ["radamsa"; _full_path (self c) path])
              (fun _ => blocks.serve temp flags)) c.
Proof. reflexivity. Qed.

Lemma append_nonempty (a b : string) : b <> "" -> a +:+ b <> "".
Proof. destruct a; simpl; [done|]. discriminate. Qed.

Lemma join_nonempty (a b : string) : b <> "" -> posixpath.join a b <> "".
Proof.
  intros Hb. unfold posixpath.join.
  repeat case_match; auto using append_nonempty.
Qed.

(** The first block: either an empty temporary file is created under a
    name that was free and its first descriptor is closed again, or nothing
    is created and the I/O error is signalled. *)
Lemma allocate_spec c r c' :
  quiet (world c) ->
  blocks.allocate c = (r, c') ->
  self c' = self c
  /\ same_env (world c) (world c')
  /\ fds (world c') = fds (world c)
  /\ match r with
     | Ok p =>
         p <> ""
         /\ disk (world c) !! os.key (world c) p = None
         /\ disk (world c')
            = <[os.key (world c) p := os.new_file 384]> (disk (world c))
     | Raise e => e = FuseOSError errno.EIO /\ disk (world c') = disk (world c)
     end.
Proof.
  intros [_ Hclose]. destruct c as [s w]. simpl.
  unfold blocks.allocate, tempfile.NamedTemporaryFile, tempfile.close,
    tempfile.name.
  unfold try_except, bind, lift, get, ret, raise. simpl.
  destruct (tempfile._mkstemp_inner _ _ _ w) as [[f|e] w1] eqn:Hmk;
    apply mkstemp_inner_spec in Hmk as (Henv & Hmk).
  - destruct Hmk as ([name Hname] & Hnone & Hdisk & Hfd & Hfds). simpl.
    destruct (os.close f.1 w1) as [[?|e] w2] eqn:Hcl;
      apply os_close_spec in Hcl as (Henv' & Hdisk' & Hcl).
    + simpl. intros [= <- <-]. simpl. split; [done|].
      split; [by eapply same_env_trans|].
      split; [by rewrite Hcl, Hfds, delete_insert_id|].
      split; [rewrite Hname; apply join_nonempty; discriminate|].
      split; [done | congruence].
    + simpl. intros _. destruct Hcl as (_ & _ & Hcl).
      destruct Henv as (_&_&_&Hf). rewrite Hf in Hcl.
      specialize (Hcl (Hclose _)). by rewrite Hfds, lookup_insert_eq in Hcl.
  - simpl. intros [= <- <-]. simpl. destruct Hmk as [Hd Hf]. auto 10.
Qed.

(** Each of the three handlers deletes the artifact and signals the I/O
    error. *)
Lemma cleanup_spec p e c r c' i :
  quiet (world c) ->
  disk (world c) !! os.key (world c) p = Some i -> file_like i ->
  blocks.cleanup p e c = (r, c') ->
  self c' = self c
  /\ same_env (world c) (world c')
  /\ fds (world c') = fds (world c)
  /\ r = Raise (FuseOSError errno.EIO)
  /\ disk (world c') = delete (os.key (world c) p) (disk (world c)).
Proof.
  intros [Hrm _] Hi Hfile. destruct c as [s w]. simpl in *.
  assert (bind (lift (os.remove p))
            (fun _ => raise (FuseOSError errno.EIO)) (mkCfg s w) = (r, c') ->
          self c' = s /\ same_env w (world c') /\ fds (world c') = fds w
          /\ r = Raise (FuseOSError errno.EIO)
          /\ disk (world c') = delete (os.key w p) (disk w)) as Hbody.
  { unfold bind, lift, raise. simpl.
    destruct (os.remove p w) as [[?|e'] w1] eqn:Hr;
      apply os_remove_spec in Hr as (Henv & Hfds & Hr).
    - intros [= <- <-]. simpl. auto 10.
    - destruct Hr as (_ & _ & Hr). by destruct (Hr (Hrm _) i Hi). }
  unfold blocks.cleanup. repeat case_match; apply Hbody.
Qed.

(** The second block: the artifact receives the output of the fuzzer, or
    it is deleted before the I/O error is signalled (fuzzer missing, fuzzer
    failing, output not captured), provided the driver refuses no deletion
    and no close. *)
Lemma mutate_spec p command c r c' i :
  quiet (world c) ->
  disk (world c) !! os.key (world c) p = Some i -> file_like i ->
  blocks.mutate p command c = (r, c') ->
  self c' = self c
  /\ same_env (world c) (world c')
  /\ fds (world c') = fds (world c)
  /\ match r with
     | Ok _ =>
         exists i', file_like i'
           /\ disk (world c') = <[os.key (world c) p := i']> (disk (world c))
     | Raise e =>
         e = FuseOSError errno.EIO
         /\ disk (world c') = delete (os.key (world c) p) (disk (world c))
     end.
Proof.
  intros Hq Hi Hfile. destruct c as [s w]. simpl in *.
  set (k := os.key w p) in *.
  unfold blocks.mutate, builtins.with_open.
  unfold try_except, lift at 1, bind, try_finally. simpl.
  destruct (os.open p builtins.mode_wb 438 w) as [[f|e] w1] eqn:Hopen;
    apply os_open_spec in Hopen as (Henv1 & Hopen).
  - destruct Hopen as (Hf & Hfds1 & Hdisk1). fold k in Hfds1, Hdisk1.
    rewrite Hi in Hdisk1. destruct Hdisk1 as [_ Hdisk1].
    assert (exists i1, file_like i1 /\ disk w1 = <[k := i1]> (disk w))
      as (i1 & Hfile1 & Hd1).
    { destruct Hdisk1 as [->|[_ ->]]; [|by eauto using file_like_set_data].
      exists i. by rewrite insert_id. }
    destruct (subprocess.run command f w1) as [rr w2] eqn:Hrun.
    apply subprocess_run_spec in Hrun as (Henv2 & Hfds2 & Hdisk2).
    assert (exists i2, file_like i2 /\ disk w2 = <[k := i2]> (disk w))
      as (i2 & Hfile2 & Hd2).
    { destruct Hdisk2 as [->|(k' & out & Hk' & ->)]; [by eauto|].
      rewrite Hfds1, lookup_insert_eq in Hk'. injection Hk' as <-.
      rewrite Hd1, alter_insert_eq. eauto using file_like_set_data. }
    assert (quiet w2) as Hq2.
    { eapply quiet_same_env; [|exact Hq]. eapply same_env_trans; done. }
    destruct (os.close f w2) as [[?|e] w3] eqn:Hcl;
      apply os_close_spec in Hcl as (Henv3 & Hdisk3 & Hcl).
    + assert (fds w3 = fds w) as Hfds3
        by (by rewrite Hcl, Hfds2, Hfds1, delete_insert_id).
      assert (same_env w w3) as Henv.
      { eapply same_env_trans; [|exact Henv3]. eapply same_env_trans; done. }
      destruct rr as [?|e]; simpl.
      * intros [= <- <-]. simpl. rewrite Hdisk3. eauto 10.
      * intros Hc. eapply (cleanup_spec p e (mkCfg s w3) r c' i2) in Hc; simpl.
        -- destruct Hc as (Hs & Henv' & Hfds' & -> & Hd').
           simpl in *. rewrite (same_env_key w w3) in Hd' by done.
           fold k in Hd'. rewrite Hdisk3, Hd2, delete_insert_eq in Hd'.
           split; [done|]. split; [by eapply same_env_trans|].
           split; [congruence | done].
        -- eapply quiet_same_env; done.
        -- simpl. rewrite (same_env_key w w3) by done. fold k.
           by rewrite Hdisk3, Hd2, lookup_insert_eq.
        -- done.
    + destruct Hcl as (_ & _ & Hcl). destruct Hq2 as [_ Hq2].
      specialize (Hcl (Hq2 _)).
      by rewrite Hfds2, Hfds1, lookup_insert_eq in Hcl.
  - destruct Hopen as (Hdisk1 & Hfds1 & _).
    intros Hc. eapply (cleanup_spec p e (mkCfg s w1) r c' i) in Hc; simpl.
    + destruct Hc as (Hs & Henv' & Hfds' & -> & Hd').
      simpl in *. rewrite (same_env_key w w1) in Hd' by done.
      fold k in Hd'. rewrite Hdisk1 in Hd'.
      split; [done|]. split; [by eapply same_env_trans|].
      split; [congruence | done].
    + eapply quiet_same_env; done.
    + simpl. rewrite (same_env_key w w1) by done. fold k. by rewrite Hdisk1.
    + done.
Qed.

(** The third block: the native open of the artifact and its
    registration under the new handle; a failure of the native open is
    raised as it is. *)
Lemma serve_spec p flags c r c' i :
  disk (world c) !! os.key (world c) p = Some i -> file_like i ->
  blocks.serve p flags c = (r, c') ->
  same_env (world c) (world c')
  /\ match r with
     | Ok fh =>
         fds (world c) !! fh = None
         /\ fds (world c') = <[fh := os.key (world c) p]> (fds (world c))
         /\ temp_files (self c') = <[fh := p]> (temp_files (self c))
         /\ exists i', file_like i'
              /\ disk (world c') = <[os.key (world c) p := i']> (disk (world c))
     | Raise e => exists n, e = OSError n
     end.
Proof.
  destruct c as [[rt tf] w]. unfold blocks.serve, set_temp_files.
  unfold bind, lift, modify, ret. simpl. intros Hi Hfile.
  destruct (os.open p flags 511 w) as [[fh|e] w1] eqn:Hopen;
    apply os_open_spec in Hopen as (Henv & Hopen); intros [= <- <-]; simpl.
  - destruct Hopen as (Hfd & Hfds & Hdisk). rewrite Hi in Hdisk.
    split; [done|]. split; [done|]. split; [done|]. split; [done|].
    destruct Hdisk as [_ [->|[_ ->]]].
    + exists i. by rewrite insert_id.
    + eauto using file_like_set_data.
  - split; [done|]. by destruct Hopen as (_ & _ & Hn).
Qed.

(** Claim C1 fails on the code.  The driver refuses the native open of
    the artifact (here with [EMFILE]): [open] raises that error, returns no
    handle and registers nothing, but the artifact [/tmp/tmpab12] with the
    fuzzed bytes is still on disk, and no deletion was attempted: the last
    call to the driver is the refused open. *)
Theorem open_native_failure_leaves_artifact :
  let call := SysOpen "/tmp/tmpab12" os.O_RDONLY 511 in
  let c := demo.mounted (demo.fail call errno.EMFILE) in
  (FATS.open "/a.txt" os.O_RDONLY c).1 = Raise (OSError errno.EMFILE)
  /\ content (FATS.open "/a.txt" os.O_RDONLY c).2 "/tmp/tmpab12" = Some "hello!"
  /\ temp_files (self (FATS.open "/a.txt" os.O_RDONLY c).2) = ∅
  /\ trace (world (FATS.open "/a.txt" os.O_RDONLY c).2)
     = [SysOpen "/tmp/tmpab12" 131266 384; SysClose 0;
        SysOpen "/tmp/tmpab12" 577 438;
        SysSpawn ["radamsa"; "/srv/mirror/a.txt"]; SysClose 0;
        SysOpen "/tmp/tmpab12" 0 511].
Proof. vm_compute. done. Qed.

(** The same happens when closing the descriptor of the new temporary file
    fails: the first handler signals the I/O error without deleting it. *)
Example open_close_failure_leaves_artifact :
  let c := demo.mounted (demo.fail (SysClose 0) errno.EIO) in
  (FATS.open "/a.txt" os.O_RDONLY c).1 = Raise (FuseOSError errno.EIO)
  /\ content (FATS.open "/a.txt" os.O_RDONLY c).2 "/tmp/tmpab12" = Some ""
  /\ temp_files (self (FATS.open "/a.txt" os.O_RDONLY c).2) = ∅
  /\ trace (world (FATS.open "/a.txt" os.O_RDONLY c).2)
     = [SysOpen "/tmp/tmpab12" 131266 384; SysClose 0].
Proof. vm_compute. done. Qed.

(** A fuzzer that is not installed leaves nothing behind. *)
Example open_without_fuzzer_cleans_up :
  let w := demo.world demo.no_fault in
  let c := mkCfg (mk "/srv/mirror" ∅)
             (mkWorld (disk w) (fds w) (cwd w) (tmpdir w) (tmp_names w) ∅
                      (fault w) (trace w)) in
  (FATS.open "/a.txt" os.O_RDONLY c).1 = Raise (FuseOSError errno.EIO)
  /\ disk (world (FATS.open "/a.txt" os.O_RDONLY c).2) = demo.tree
  /\ fds (world (FATS.open "/a.txt" os.O_RDONLY c).2) = ∅.
Proof. vm_compute. done. Qed.

(** ** The table and the artifacts *)

Lemma Inv_mount c0 : temp_files (self c0) = ∅ -> Inv c0 c0.
Proof.
  intros Hempty. split; try (intros *; rewrite Hempty, lookup_empty; done).
  - apply same_env_refl.
  - done.
  - intros k. unfold artifact_at, handled. rewrite Hempty. split.
    + intros [[i Hi] Hn]. congruence.
    + intros (fh & p & Hl & _). by rewrite lookup_empty in Hl.
Qed.

(** A step that leaves the object, the disk and the descriptors alone. *)
Lemma Inv_frame c0 c c' :
  self c' = self c -> same_env (world c) (world c') ->
  disk (world c') = disk (world c) -> fds (world c') = fds (world c) ->
  Inv c0 c -> Inv c0 c'.
Proof.
  intros Hs Henv Hd Hf [He Ho Hc Hi Hop Hfi].
  assert (forall p, os.key (world c') p = os.key (world c) p) as Hk
    by (intros; by apply same_env_key).
  split.
  - by eapply same_env_trans.
  - by rewrite Hd.
  - intros k. unfold artifact_at, handled. rewrite Hd, Hs.
    setoid_rewrite Hk. apply Hc.
  - rewrite Hs. setoid_rewrite Hk. done.
  - rewrite Hs, Hf. done.
  - rewrite Hs, Hd. setoid_rewrite Hk. done.
Qed.

Lemma release_spec path fh c r c' :
  release path fh c = (r, c') ->
  temp_files (self c') = delete fh (temp_files (self c))
  /\ same_env (world c) (world c')
  /\ (fds (world c') = fds (world c) \/ fds (world c') = delete fh (fds (world c)))
  /\ match temp_files (self c) !! fh with
     | Some p =>
         disk (world c') = delete (os.key (world c) p) (disk (world c))
         \/ (disk (world c') = disk (world c)
             /\ (p <> "" -> fault (world c) (SysRemove p) = None ->
                 forall i, disk (world c) !! os.key (world c) p = Some i ->
                           ~ file_like i))
     | None => disk (world c') = disk (world c)
     end.
Proof.
  destruct c as [[rt tf] w]. unfold release, truthy.
  unfold bind at 1, get at 1. unfold bind at 1, set_temp_files at 1, modify at 1.
  simpl.
  set (c1 := mkCfg (mk rt (delete fh tf)) w).
  assert (forall (m : M Cfg unit) c2,
            self c2 = self c1 -> 
            lift (os.close fh) c2 = (r, c') ->
            temp_files (self c') = delete fh tf
            /\ same_env (world c2) (world c')
            /\ (fds (world c') = fds (world c2)
                \/ fds (world c') = delete fh (fds (world c2)))
            /\ disk (world c') = disk (world c2)) as Hclose.
  { intros _ [s2 w2] Hs. unfold lift. simpl in *. subst s2.
    destruct (os.close fh w2) as [[?|e] w3] eqn:Hcl;
      apply os_close_spec in Hcl as (Henv & Hdisk & Hcl);
      intros [= <- <-]; simpl; [|destruct Hcl as [Hcl _]]; auto 10. }
  destruct (tf !! fh) as [p|] eqn:Hp; simpl.
  - destruct (String.eqb_spec p "") as [->|Hne]; simpl.
    + unfold bind at 1, ret at 1. intros Hc.
      apply (Hclose (ret tt)) in Hc as (Ht & Henv & Hfds & Hdisk); [|done].
      simpl in *. split; [done|]. split; [done|]. split; [done|].
      right. split; [done|]. done.
    + unfold bind at 1, try_except, lift at 1. simpl.
      destruct (os.remove p w) as [[?|e] w1] eqn:Hr;
        apply os_remove_spec in Hr as (Henv1 & Hfds1 & Hr).
      * intros Hc.
        apply (Hclose (ret tt) (mkCfg _ w1)) in Hc
          as (Ht & Henv & Hfds & Hdisk); [|done].
        simpl in *. split; [done|]. split; [by eapply same_env_trans|].
        split; [by rewrite <- Hfds1|]. left. congruence.
      * destruct Hr as (Hd1 & [n ->] & Hr).
        simpl. unfold ret.
        intros Hc.
        apply (Hclose (ret tt) (mkCfg _ w1)) in Hc
          as (Ht & Henv & Hfds & Hdisk); [|done].
        simpl in *. split; [done|]. split; [by eapply same_env_trans|].
        split; [by rewrite <- Hfds1|]. right. split; [congruence|]. auto.
  - unfold bind at 1, ret at 1. intros Hc.
    apply (Hclose (ret tt)) in Hc as (Ht & Henv & Hfds & Hdisk); [|done].
    simpl in *. done.
Qed.

Lemma Inv_release c0 c path fh :
  quiet (world c0) -> Inv c0 c -> Inv c0 (release path fh c).2.
Proof.
  intros Hq HI. destruct (release path fh c) as [r c'] eqn:Hrel. simpl.
  apply release_spec in Hrel as (Htf & Henv & Hfds & Hdisk).
  pose proof HI as [He Ho Hc Hi Hop Hfi].
  assert (forall p, os.key (world c') p = os.key (world c) p) as Hk
    by (intros; by apply same_env_key).
  assert (quiet (world c)) as [Hrm _] by (by eapply quiet_same_env).
  destruct (temp_files (self c) !! fh) as [p|] eqn:Hp.
  - destruct (Hfi _ _ Hp) as (Hne & i & Hdi & Hfile).
    destruct Hdisk as [Hdisk|[_ Hbad]];
      [|by destruct (Hbad Hne (Hrm _) i Hdi)].
    set (k := os.key (world c) p) in *.
    assert (disk (world c0) !! k = None) as Hk0.
    { apply (Hc k). by exists fh, p. }
    split.
    + by eapply same_env_trans.
    + intros k' Hk'. rewrite Hdisk, lookup_delete_ne; [by apply Ho|].
      intros <-. rewrite Hk0 in Hk'. by destruct Hk'.
    + intros k'. unfold artifact_at, handled. rewrite Hdisk, Htf.
      setoid_rewrite Hk. split.
      * intros [Hon Hno]. apply lookup_delete_is_Some in Hon as [Hne' Hon].
        destruct (proj1 (Hc k') (conj Hon Hno)) as (fh' & p' & Hl & Hkey).
        exists fh', p'. split; [|done].
        rewrite lookup_delete_ne; [done|]. intros <-.
        rewrite Hp in Hl. injection Hl as <-. by subst k.
      * intros (fh' & p' & Hl & Hkey).
        apply lookup_delete_Some in Hl as [Hne' Hl].
        destruct (proj2 (Hc k') (ex_intro _ fh' (ex_intro _ p' (conj Hl Hkey))))
          as [Hon Hno].
        split; [|done]. apply lookup_delete_is_Some. split; [|done].
        intros Heq. apply Hne'. apply (Hi fh fh' p p'); [done|done|].
        fold k. congruence.
    + rewrite Htf. setoid_rewrite Hk. intros fh1 fh2 p1 p2 H1 H2.
      apply lookup_delete_Some in H1 as [_ H1].
      apply lookup_delete_Some in H2 as [_ H2]. by apply Hi.
    + rewrite Htf. intros fh' p' Hl.
      apply lookup_delete_Some in Hl as [Hne' Hl].
      destruct Hfds as [-> | ->]; [by eapply Hop|].
      rewrite lookup_delete_ne by done. by eapply Hop.
    + rewrite Htf. setoid_rewrite Hk. intros fh' p' Hl.
      apply lookup_delete_Some in Hl as [Hne' Hl].
      destruct (Hfi _ _ Hl) as (Hne'' & i' & Hdi' & Hfile').
      split; [done|]. exists i'. split; [|done].
      rewrite Hdisk, lookup_delete_ne; [done|].
      intros Heq. apply Hne'. by apply (Hi fh fh' p p').
  - rewrite delete_id in Htf by done.
    split.
    + by eapply same_env_trans.
    + by rewrite Hdisk.
    + intros k. unfold artifact_at, handled. rewrite Hdisk, Htf.
      setoid_rewrite Hk. apply Hc.
    + rewrite Htf. setoid_rewrite Hk. done.
    + rewrite Htf. intros fh' p' Hl.
      destruct Hfds as [-> | ->]; [by eapply Hop|].
      rewrite lookup_delete_ne; [by eapply Hop|]. congruence.
    + rewrite Htf, Hdisk. setoid_rewrite Hk. done.
Qed.

Lemma Inv_open c0 c path flags :
  quiet (world c0) -> Inv c0 c ->
  handle_or_eio (open path flags c).1 ->
  Inv c0 (open path flags c).2.
Proof.
  intros Hq HI. rewrite open_blocks. unfold bind.
  assert (quiet (world c)) as Hqc by (eapply quiet_same_env; [apply HI|done]).
  destruct (blocks.allocate c) as [[p|e] c1] eqn:Hal;
    apply allocate_spec in Hal as (Hs1 & Henv1 & Hfds1 & Hal); try done.
  2: { simpl. intros _. destruct Hal as [_ Hd1]. by eapply Inv_frame. }
  destruct Hal as (Hne & Hnone & Hd1).
  set (k := os.key (world c) p) in *.
  assert (forall q, os.key (world c1) q = os.key (world c) q) as Hk1
    by (intros; by apply same_env_key).
  destruct (blocks.mutate p _ c1) as [[?|e] c2] eqn:Hmu;
    eapply (mutate_spec _ _ _ _ _ (os.new_file 384)) in Hmu
      as (Hs2 & Henv2 & Hfds2 & Hmu);
    try (by eapply quiet_same_env); try done;
    try (by rewrite Hk1; fold k; rewrite Hd1, lookup_insert_eq).
  2: { simpl. intros _. destruct Hmu as [_ Hd2].
       rewrite Hk1 in Hd2. fold k in Hd2.
       rewrite Hd1, delete_insert_id in Hd2 by done.
       eapply Inv_frame; [| |exact Hd2| |exact HI].
       - congruence.
       - by eapply same_env_trans.
       - congruence. }
  destruct Hmu as (i2 & Hfile2 & Hd2).
  rewrite Hk1 in Hd2. fold k in Hd2. rewrite Hd1, insert_insert_eq in Hd2.
  assert (forall q, os.key (world c2) q = os.key (world c) q) as Hk2.
  { intros. rewrite (same_env_key (world c1)) by done. apply Hk1. }
  destruct (blocks.serve p flags c2) as [[fh|e] c3] eqn:Hse;
    eapply (serve_spec _ _ _ _ _ i2) in Hse as (Henv3 & Hse);
    try done; try (by rewrite Hk2; fold k; rewrite Hd2, lookup_insert_eq).
  2: { simpl. destruct Hse as [n ->]. done. }
  simpl. intros _.
  destruct Hse as (Hfd & Hfds3 & Htf3 & i3 & Hfile3 & Hd3).
  rewrite Hk2 in Hfds3, Hd3. fold k in Hfds3, Hd3.
  rewrite Hd2, insert_insert_eq in Hd3.
  rewrite Hfds2, Hfds1 in Hfd, Hfds3. rewrite Hs2, Hs1 in Htf3.
  assert (forall q, os.key (world c3) q = os.key (world c) q) as Hk3.
  { intros. rewrite (same_env_key (world c2)) by done. apply Hk2. }
  pose proof HI as [He Ho Hc Hi Hop Hfi].
  assert (temp_files (self c) !! fh = None) as Hfresh.
  { destruct (temp_files (self c) !! fh) as [q|] eqn:Hq'; [|done].
    destruct (Hop _ _ Hq') as [x Hx]. congruence. }
  assert (disk (world c0) !! k = None) as Hk0.
  { destruct (disk (world c0) !! k) as [x|] eqn:Hx; [|done].
    destruct (Ho k) as [y Hy]; [by eexists|]. congruence. }
  assert (forall fh' p', temp_files (self c) !! fh' = Some p' ->
            os.key (world c) p' <> k) as Hother.
  { intros fh' p' Hl Heq.
    destruct (proj2 (Hc k) (ex_intro _ fh' (ex_intro _ p' (conj Hl Heq))))
      as [[x Hx] _]. congruence. }
  split.
  - eapply same_env_trans; [exact He|].
    eapply same_env_trans; [exact Henv1|].
    eapply same_env_trans; [exact Henv2|exact Henv3].
  - intros k' Hk'. rewrite Hd3. apply lookup_insert_is_Some'. right. by apply Ho.
  - intros k'. unfold artifact_at, handled. rewrite Hd3, Htf3.
    setoid_rewrite Hk3. split.
    + intros [Hon Hno]. apply lookup_insert_is_Some in Hon as [<-|[Hne' Hon]].
      * exists fh, p. by rewrite lookup_insert_eq.
      * destruct (proj1 (Hc k') (conj Hon Hno)) as (fh' & p' & Hl & Hkey).
        exists fh', p'. split; [|done].
        rewrite lookup_insert_ne; [done|]. congruence.
    + intros (fh' & p' & Hl & Hkey).
      apply lookup_insert_Some in Hl as [[<- <-]|[Hne' Hl]].
      * fold k in Hkey. subst k'. split; [|done].
        by rewrite lookup_insert_eq.
      * destruct (proj2 (Hc k') (ex_intro _ fh' (ex_intro _ p' (conj Hl Hkey))))
          as [Hon Hno].
        split; [|done]. apply lookup_insert_is_Some'. by right.
  - rewrite Htf3. setoid_rewrite Hk3. intros fh1 fh2 p1 p2 H1 H2 Heq.
    apply lookup_insert_Some in H1 as [[<- <-]|[Hne1 H1]];
      apply lookup_insert_Some in H2 as [[<- <-]|[Hne2 H2]].
    + done.
    + fold k in Heq. by destruct (Hother _ _ H2).
    + fold k in Heq. by destruct (Hother _ _ H1).
    + by eapply Hi.
  - rewrite Htf3, Hfds3. intros fh' p' Hl. apply lookup_insert_is_Some'.
    apply lookup_insert_Some in Hl as [[<- <-]|[Hne' Hl]]; [by left|].
    right. by eapply Hop.
  - rewrite Htf3, Hd3. setoid_rewrite Hk3. intros fh' p' Hl.
    apply lookup_insert_Some in Hl as [[<- <-]|[Hne' Hl]].
    + split; [done|]. exists i3. fold k. by rewrite lookup_insert_eq.
    + destruct (Hfi _ _ Hl) as (Hne'' & i' & Hdi' & Hfile').
      split; [done|]. exists i'. split; [|done].
      rewrite lookup_insert_ne; [done|]. intros Heq.
      by destruct (Hother _ _ Hl).
Qed.

(** Claim C2 as stated fails.  The driver refuses the deletion of the
    artifact during [release] (here with [EACCES]); [release] goes on, as
    it is meant to, and returns normally.  At that operation boundary the
    table is empty and the artifact is still on disk. *)
Lemma release_delete_failure_breaks_correspondence :
  let c0 := demo.mounted (demo.fail (SysRemove "/tmp/tmpab12") errno.EACCES) in
  let c1 := (FATS.open "/a.txt" os.O_RDONLY c0).2 in
  let c2 := (release "/a.txt" 0 c1).2 in
  temp_files (self c0) = ∅
  /\ (FATS.open "/a.txt" os.O_RDONLY c0).1 = Ok 0%nat
  /\ (release "/a.txt" 0 c1).1 = Ok tt
  /\ reachable any_outcome c0 c2
  /\ artifact_at (disk (world c0)) c2 "/tmp/tmpab12"
  /\ temp_files (self c2) = ∅
  /\ ~ corresponds (disk (world c0)) c2.
Proof.
  intros c0 c1 c2.
  assert (artifact_at (disk (world c0)) c2 "/tmp/tmpab12") as Hart
    by (split; [eexists; vm_compute; reflexivity | vm_compute; reflexivity]).
  assert (temp_files (self c2) = ∅) as Hempty by (vm_compute; reflexivity).
  split; [reflexivity|]. split; [vm_compute; reflexivity|].
  split; [vm_compute; reflexivity|]. split.
  { apply reach_release, reach_open; [apply reach_mount | exact I]. }
  split; [exact Hart|]. split; [exact Hempty|].
  intros Hc. destruct (proj1 (Hc "/tmp/tmpab12") Hart) as (fh & p & Hl & _).
  rewrite Hempty, lookup_empty in Hl. done.
Qed.

(** Claim C2, amended.  Start from a mount with an empty table, and let
    the driver refuse no deletion and no close.  In every configuration
    reached by [open] and [release] calls in which each [open] returned a
    handle or signalled the I/O error, a temporary artifact (a file that
    was not on disk at the mount) exists on disk if and only if some live
    handle maps to its path in the table. *)
Theorem artifacts_track_handles (c0 c : Cfg) :
  temp_files (self c0) = ∅ ->
  quiet (world c0) ->
  reachable handle_or_eio c0 c ->
  corresponds (disk (world c0)) c.
Proof.
  intros Hempty Hq Hreach. apply inv_corr.
  induction Hreach as [|c path flags _ IH Hok|c path fh _ IH].
  - by apply Inv_mount.
  - by apply Inv_open.
  - by apply Inv_release.
Qed.

Lemma artifacts_track_handles_witness :
  let c0 := demo.mounted demo.no_fault in
  let c := (release "/a.txt" 0 (FATS.open "/a.txt" os.O_RDONLY c0).2).2 in
  temp_files (self c0) = ∅
  /\ quiet (world c0)
  /\ reachable handle_or_eio c0 (FATS.open "/a.txt" os.O_RDONLY c0).2
  /\ reachable handle_or_eio c0 c
  /\ corresponds (disk (world c0)) (FATS.open "/a.txt" os.O_RDONLY c0).2
  /\ corresponds (disk (world c0)) c.
Proof.
  intros c0 c.
  assert (quiet (world c0)) as Hq by (split; intros; reflexivity).
  assert (reachable handle_or_eio c0 (FATS.open "/a.txt" os.O_RDONLY c0).2)
    as Hopen by (apply reach_open; [apply reach_mount | exact I]).
  assert (reachable handle_or_eio c0 c) as Hrel
    by (apply reach_release; exact Hopen).
  split; [reflexivity|]. split; [exact Hq|].
  split; [exact Hopen|]. split; [exact Hrel|]. split.
  - apply (artifacts_track_handles c0 _ eq_refl Hq Hopen).
  - apply (artifacts_track_handles c0 _ eq_refl Hq Hrel).
Defined.

(** * Further properties of the code *)

(** ** The path mapping *)

Lemma append_cancel (a b c : string) : a +:+ b = a +:+ c -> b = c.
Proof. induction a as [|ch a IH]; simpl; [done|]. intros [= H]. by apply IH. Qed.

(** Property X1.  Two virtual paths that [_full_path] maps to the same real
    path are the same once their single leading separator is stripped: the
    mapping confuses no two names of the mount (as long as neither keeps a
    leading separator after the strip), and a path with and without its
    leading separator name the same file. *)
Theorem full_path_injective (self : FATS.t) (p1 p2 : string) :
  str.startswith (remainder p1) "/" = false ->
  str.startswith (remainder p2) "/" = false ->
  _full_path self p1 = _full_path self p2 ->
  remainder p1 = remainder p2.
Proof.
  intros H1 H2.
  assert (forall p, str.startswith (remainder p) "/" = false ->
            _full_path self p
            = root self +:+ glue (root self) +:+ remainder p) as Hshape.
  { intros p Hp. unfold _full_path, posixpath.join, glue. fold (remainder p).
    rewrite Hp. by destruct (_ || _)%bool. }
  rewrite !Hshape by done. intros Heq.
  by do 2 apply append_cancel in Heq.
Qed.

Lemma full_path_injective_witness :
  str.startswith (remainder "/a.txt") "/" = false
  /\ str.startswith (remainder "a.txt") "/" = false
  /\ _full_path (mk "/srv/mirror" ∅) "/a.txt"
     = _full_path (mk "/srv/mirror" ∅) "a.txt"
  /\ remainder "/a.txt" = remainder "a.txt".
Proof.
  split; [reflexivity|]. split; [reflexivity|]. split; [reflexivity|].
  apply (full_path_injective (mk "/srv/mirror" ∅) "/a.txt" "a.txt");
    reflexivity.
Defined.

(** ** readlink, readdir, getattr *)

Lemma ltb_asym (x y : string) : String.ltb x y = true -> String.ltb y x = false.
Proof.
  unfold String.ltb. rewrite (String.compare_antisym y x).
  by destruct (String.compare x y).
Qed.

Lemma ltb_total (x y : string) :
  String.eqb x y = false -> String.ltb x y = false -> String.ltb y x = true.
Proof.
  unfold String.ltb. rewrite (String.compare_antisym y x). intros Hne.
  destruct (String.compare x y) eqn:Hc; try done.
  apply String.compare_eq_iff in Hc. subst. by rewrite String.eqb_refl in Hne.
Qed.

Lemma list_lt_asym (a b : list string) :
  posixpath.list_lt a b = true -> posixpath.list_lt b a = false.
Proof.
  revert b. induction a as [|x a IH]; intros [|y b]; simpl; try done.
  rewrite (String.eqb_sym y x).
  destruct (String.eqb x y); [apply IH | apply ltb_asym].
Qed.

Lemma list_lt_total (a b : list string) :
  posixpath.list_lt a b = false -> posixpath.list_lt b a = false -> a = b.
Proof.
  revert b. induction a as [|x a IH]; intros [|y b]; simpl; try done.
  rewrite (String.eqb_sym y x).
  destruct (String.eqb_spec x y) as [->|Hne].
  - intros H1 H2. f_equal. by apply IH.
  - intros H1 H2. apply ltb_total in H1; [congruence|].
    by apply String.eqb_neq.
Qed.

Lemma lcp_comm (a b : list string) : lcp a b = lcp b a.
Proof.
  revert b. induction a as [|x a IH]; intros [|y b]; simpl; try done.
  rewrite (String.eqb_sym y x).
  destruct (String.eqb_spec x y) as [->|Hne]; [by rewrite IH | done].
Qed.

Lemma lcp_refl (a : list string) : lcp a a = a.
Proof. induction a as [|x a IH]; simpl; [done|]. by rewrite String.eqb_refl, IH. Qed.

Lemma commonprefix_loop_lt (s1 s2 : list string) :
  posixpath.list_lt s1 s2 = true ->
  posixpath.commonprefix_loop s1 s2 = Ok (lcp s1 s2).
Proof.
  revert s2. induction s1 as [|c s1 IH]; intros [|d s2]; simpl; try done.
  destruct (String.eqb c d); [|done]. intros Hlt. by rewrite IH.
Qed.

(** [commonprefix] walks along the smaller of the two lists, so the index
    into the larger one is always in range: it never raises and returns the
    longest common prefix. *)
Lemma commonprefix_lcp (a b : list string) :
  posixpath.commonprefix a b = Ok (lcp a b).
Proof.
  unfold posixpath.commonprefix.
  destruct (posixpath.list_lt b a) eqn:Hba, (posixpath.list_lt a b) eqn:Hab.
  - apply list_lt_asym in Hba. congruence.
  - rewrite lcp_comm. by apply commonprefix_loop_lt.
  - by apply commonprefix_loop_lt.
  - rewrite (list_lt_total a b) by done.
    rewrite lcp_refl. rewrite <- (app_nil_r b) at 2.
    apply commonprefix_loop_app.
Qed.

Lemma relpath_climbs cwd path start :
  path <> "" ->
  posixpath.relpath cwd path start
  = Ok (rel_string (climb (posixpath.tail_list cwd start)
                          (posixpath.tail_list cwd path))).
Proof.
  intros Hne. unfold posixpath.relpath, climb.
  destruct (String.eqb_spec path ""); [done|].
  rewrite commonprefix_lcp. cbv zeta.
  destruct (_ ++ _)%list eqn:Hl; [done|].
  by rewrite bool_decide_eq_false_2.
Qed.

(** Property X2.  [readlink] on a symbolic link never fails and changes
    nothing.  A relative target is answered as stored; an absolute target,
    inside MirrorRoot or not, is answered relative to MirrorRoot: one [..]
    for each component of the root that the target does not share, then the
    remaining components of the target (["."] when nothing is left). *)
Theorem readlink_link_never_fails (c : Cfg) (path target : string) :
  node_at c path = Some (KSymlink target) ->
  readlink path c
  = (Ok (if str.startswith target "/"
         then rel_string
                (climb (posixpath.tail_list (cwd (world c)) (root (self c)))
                       (posixpath.tail_list (cwd (world c)) target))
         else target), c).
Proof.
  unfold node_at, real_path. intros Hnode.
  destruct (disk (world c) !! _) as [i|] eqn:Hi; [|done].
  simpl in Hnode. injection Hnode as Hk.
  assert (lift (os.readlink (_full_path (self c) path)) c = (Ok target, c))
    as Hread.
  { unfold lift, os.readlink. monad_unfold. rewrite Hi, Hk. by destruct c. }
  unfold readlink. unfold bind at 1. unfold get at 1. unfold bind.
  rewrite Hread. destruct (str.startswith target "/") eqn:Habs; [|done].
  unfold lift_result. rewrite relpath_climbs; [done|]. by intros ->.
Qed.

Lemma readlink_link_never_fails_witness :
  node_at scenes.outside_link "/out" = Some (KSymlink "/etc/passwd")
  /\ readlink "/out" scenes.outside_link
     = (Ok "../../etc/passwd", scenes.outside_link).
Proof.
  assert (node_at scenes.outside_link "/out" = Some (KSymlink "/etc/passwd"))
    as Hl by (vm_compute; reflexivity).
  split; [exact Hl|].
  rewrite (readlink_link_never_fails _ _ _ Hl). vm_compute. reflexivity.
Defined.

(** Property X3.  In a tree without symbolic links, [readdir] on a path
    that is not a directory (a regular file, or nothing at all) raises no
    error: it yields ["."] and [".."] and nothing else, and changes
    nothing.  (A link to a directory is listed like the directory by the
    real driver, which follows it; the driver of this development does not,
    so trees with links are left out here.) *)
Theorem readdir_not_directory (c : Cfg) (path : string) (fh : nat) :
  no_links (world c) ->
  node_at c path <> Some KDir ->
  readdir path fh c = (Ok ["."; ".."], c).
Proof.
  unfold node_at, real_path. intros _ Hnode.
  unfold readdir, os.path_isdir. monad_unfold.
  destruct (disk (world c) !! _) as [i|] eqn:Hi; simpl.
  - destruct (i_kind i) eqn:Hk; simpl; try by destruct c.
    simpl in Hnode. congruence.
  - by destruct c.
Qed.

Lemma readdir_not_directory_witness :
  no_links (world scenes.plain)
  /\ node_at scenes.plain "/a.txt" <> Some KDir
  /\ node_at scenes.plain "/missing" <> Some KDir
  /\ readdir "/a.txt" 0 scenes.plain = (Ok ["."; ".."], scenes.plain)
  /\ readdir "/missing" 0 scenes.plain = (Ok ["."; ".."], scenes.plain).
Proof.
  assert (no_links (world scenes.plain)) as H0
    by (unfold no_links; refine (bool_decide_unpack _ _); vm_compute;
        exact I).
  assert (node_at scenes.plain "/a.txt" <> Some KDir) as H1
    by (vm_compute; discriminate).
  assert (node_at scenes.plain "/missing" <> Some KDir) as H2
    by (vm_compute; discriminate).
  split; [exact H0|]. split; [exact H1|]. split; [exact H2|]. split.
  - apply (readdir_not_directory _ "/a.txt" 0 H0 H1).
  - apply (readdir_not_directory _ "/missing" 0 H0 H2).
Defined.

(** Property X4.  [getattr] on a missing path raises [ENOENT] and changes
    nothing.  On an existing entry of any kind it returns exactly eight
    fields, in this order: access time, change time, group, mode (type and
    permission bits), modification time, link count, size and owner of the
    entry; the device and the block size are left out. *)
Theorem getattr_eight_fields (c : Cfg) (path : string) (fh : option nat) :
  match disk (world c) !! real_path c path with
  | Some i =>
      getattr path fh c
      = (Ok [("st_atime", i_atime i); ("st_ctime", i_ctime i);
             ("st_gid", i_gid i);
             ("st_mode", Z.lor (os.ifmt (i_kind i)) (i_perm i));
             ("st_mtime", i_mtime i); ("st_nlink", i_nlink i);
             ("st_size", os.size_of (i_kind i)); ("st_uid", i_uid i)], c)
  | None => getattr path fh c = (Raise (OSError errno.ENOENT), c)
  end.
Proof.
  unfold real_path, getattr, os.lstat. monad_unfold.
  destruct (disk (world c) !! _) as [i|] eqn:Hi; simpl; by destruct c.
Qed.

(** ** create, truncate, unlink *)

(** Property X5.  [create] opens with [O_WRONLY | O_CREAT] and neither
    [O_EXCL] nor [O_TRUNC]: on a path that is already a regular file it
    succeeds, returns a fresh descriptor for that file and leaves the disk
    as it is; the content is kept and the mode is ignored. *)
Theorem create_existing_keeps_content (c : Cfg) (path : string) (mode : Z)
    (i : inode) (data : string) :
  disk (world c) !! real_path c path = Some i ->
  i_kind i = KFile data ->
  fault (world c)
    (SysOpen (_full_path (self c) path) (Z.lor os.O_WRONLY os.O_CREAT) mode)
  = None ->
  (create path mode c).1 = Ok (os.lowest_fd (fds (world c)))
  /\ disk (world (create path mode c).2) = disk (world c)
  /\ fds (world (create path mode c).2)
     = <[os.lowest_fd (fds (world c)) := real_path c path]> (fds (world c))
  /\ self (create path mode c).2 = self c.
Proof.
  destruct c as [[rt tf] w]. unfold real_path. simpl. intros Hi Hk Hf.
  unfold create, os.open, os.sys, os.alloc_fd. monad_unfold. simpl.
  rewrite Hf. simpl. rewrite !key_log.
  change (os.has os.O_CREAT (Z.lor os.O_WRONLY os.O_CREAT)) with true.
  change (os.has os.O_EXCL (Z.lor os.O_WRONLY os.O_CREAT)) with false.
  change (os.has os.O_TRUNC (Z.lor os.O_WRONLY os.O_CREAT)) with false.
  rewrite Hi. simpl. rewrite Hk. simpl. done.
Qed.

Lemma create_existing_keeps_content_witness :
  let c := demo.mounted demo.no_fault in
  disk (world c) !! real_path c "/a.txt" = Some (demo.file "hello")
  /\ (create "/a.txt" 384 c).1 = Ok 0%nat
  /\ disk (world (create "/a.txt" 384 c).2) = disk (world c).
Proof.
  intros c.
  assert (disk (world c) !! real_path c "/a.txt" = Some (demo.file "hello"))
    as Hi by (vm_compute; reflexivity).
  destruct (create_existing_keeps_content c "/a.txt" 384 _ "hello" Hi eq_refl
              eq_refl) as (Hr & Hd & _).
  split; [exact Hi|]. split; [exact Hr | exact Hd].
Defined.




Lemma resize_all data : os.resize (String.length data) data = data.
Proof. induction data as [|ch data IH]; simpl; [done|]. by rewrite IH. Qed.




(** Property X8.  A path-only [truncate] to a negative length raises
    [EINVAL]; the file keeps its bytes and the descriptor opened for the
    attempt is closed again. *)
Theorem truncate_negative_length (c : Cfg) (path : string) (length : Z)
    (i : inode) (data : string) :
  length < 0 ->
  truncate_quiet c path length ->
  disk (world c) !! real_path c path = Some i ->
  i_kind i = KFile data ->
  (truncate path length None c).1 = Raise (OSError errno.EINVAL)
  /\ disk (world (truncate path length None c).2) = disk (world c)
  /\ fds (world (truncate path length None c).2) = fds (world c).
Proof.
  destruct c as [[rt tf] w]. unfold real_path, truncate_quiet. simpl.
  intros Hlen (Hf1 & Hf2 & Hf3) Hi Hk.
  unfold truncate, builtins.with_open, os.open, os.ftruncate, os.close, os.sys,
    os.alloc_fd.
  monad_unfold. simpl. rewrite Hf1. simpl. rewrite !key_log.
  set (k := os.key w _) in *. rewrite Hi, Hk. simpl.
  assert ((length <? 0) = true) as Hl by lia.
  repeat (progress (rewrite ?Hf2, ?Hf3, ?lookup_insert_eq, ?Hi, ?Hk, ?Hl; simpl)).
  split; [done|]. split; [done|]. apply delete_insert_id, lowest_fd_fresh.
Qed.

Lemma truncate_negative_length_witness :
  let c := demo.mounted demo.no_fault in
  -1 < 0 /\ truncate_quiet c "/a.txt" (-1)
  /\ disk (world c) !! real_path c "/a.txt" = Some (demo.file "hello")
  /\ (truncate "/a.txt" (-1) None c).1 = Raise (OSError errno.EINVAL)
  /\ disk (world (truncate "/a.txt" (-1) None c).2) = disk (world c)
  /\ fds (world (truncate "/a.txt" (-1) None c).2) = fds (world c).
Proof.
  intros c.
  assert (truncate_quiet c "/a.txt" (-1)) as Hq by (repeat split).
  assert (disk (world c) !! real_path c "/a.txt" = Some (demo.file "hello"))
    as Hi by (vm_compute; reflexivity).
  assert (-1 < 0) as Hlen by lia.
  destruct (truncate_negative_length c "/a.txt" (-1) _ "hello" Hlen Hq Hi
              eq_refl) as (Hr & Hd & Hf).
  split; [exact Hlen|]. split; [exact Hq|]. split; [exact Hi|].
  split; [exact Hr|]. split; [exact Hd | exact Hf].
Defined.

(** Property X9.  A path-only [truncate] of a path that does not exist
    raises the error of the open (mode ["r+"] does not create): no file is
    created and no descriptor is left open. *)
Theorem truncate_missing_creates_nothing (c : Cfg) (path : string) (length : Z) :
  disk (world c) !! real_path c path = None ->
  (exists e, (truncate path length None c).1 = Raise (OSError e))
  /\ disk (world (truncate path length None c).2) = disk (world c)
  /\ fds (world (truncate path length None c).2) = fds (world c).
Proof.
  destruct c as [[rt tf] w]. unfold real_path. simpl. intros Hi.
  unfold truncate, builtins.with_open, os.open, os.sys. monad_unfold. simpl.
  destruct (fault w _); simpl; [by eauto|].
  rewrite !key_log, Hi. simpl. by eauto.
Qed.

Lemma truncate_missing_creates_nothing_witness :
  let c := demo.mounted demo.no_fault in
  disk (world c) !! real_path c "/missing" = None
  /\ (truncate "/missing" 0 None c).1 = Raise (OSError errno.ENOENT)
  /\ disk (world (truncate "/missing" 0 None c).2) = disk (world c)
  /\ fds (world (truncate "/missing" 0 None c).2) = fds (world c).
Proof.
  intros c.
  assert (disk (world c) !! real_path c "/missing" = None) as Hi
    by (vm_compute; reflexivity).
  destruct (truncate_missing_creates_nothing c "/missing" 0 Hi)
    as (_ & Hd & Hf).
  split; [exact Hi|]. split; [vm_compute; reflexivity|].
  split; [exact Hd | exact Hf].
Defined.

(** Property X10.  [unlink] of a file or link that exists removes exactly
    that entry from the disk, unless the driver refuses; descriptors and the
    object with its table are unchanged, and [getattr] of the same path
    raises [ENOENT] afterwards. *)
Theorem unlink_removes_file (c : Cfg) (path : string) (i : inode) :
  disk (world c) !! real_path c path = Some i ->
  i_kind i <> KDir ->
  fault (world c) (SysRemove (_full_path (self c) path)) = None ->
  let c' := (unlink path c).2 in
  (unlink path c).1 = Ok tt
  /\ disk (world c') = delete (real_path c path) (disk (world c))
  /\ fds (world c') = fds (world c)
  /\ self c' = self c
  /\ forall fh, (getattr path fh c').1 = Raise (OSError errno.ENOENT).
Proof.
  destruct c as [[rt tf] w]. unfold real_path. simpl. intros Hi Hk Hf.
  unfold unlink, getattr, os.lstat, os.remove, os.sys. monad_unfold. simpl.
  rewrite Hf. simpl. rewrite !key_log, Hi. simpl.
  destruct (i_kind i) eqn:Hkind; try done; simpl;
    (repeat split; [intros fh; unfold os.key; simpl;
                    fold (os.key w (_full_path (mk rt tf) path));
                    by rewrite lookup_delete_eq]).
Qed.

Lemma unlink_removes_file_witness :
  let c := demo.mounted demo.no_fault in
  disk (world c) !! real_path c "/a.txt" = Some (demo.file "hello")
  /\ (unlink "/a.txt" c).1 = Ok tt
  /\ disk (world (unlink "/a.txt" c).2)
     = delete (real_path c "/a.txt") (disk (world c))
  /\ (getattr "/a.txt" None (unlink "/a.txt" c).2).1
     = Raise (OSError errno.ENOENT).
Proof.
  intros c.
  assert (disk (world c) !! real_path c "/a.txt" = Some (demo.file "hello"))
    as Hi by (vm_compute; reflexivity).
  assert (i_kind (demo.file "hello") <> KDir) as Hk by discriminate.
  destruct (unlink_removes_file c "/a.txt" _ Hi Hk eq_refl)
    as (Hr & Hd & _ & _ & Hg).
  split; [exact Hi|]. split; [exact Hr|]. split; [exact Hd | exact (Hg None)].
Defined.

(** Property X11.  When [unlink] fails (missing path, directory, refusal of
    the driver) it raises an [OSError] and changes neither the disk nor the
    descriptors nor the object. *)
Theorem unlink_failure_changes_nothing (c : Cfg) (path : string) (e : exn) :
  (unlink path c).1 = Raise e ->
  (exists n, e = OSError n)
  /\ self (unlink path c).2 = self c
  /\ disk (world (unlink path c).2) = disk (world c)
  /\ fds (world (unlink path c).2) = fds (world c).
Proof.
  destruct c as [s w]. unfold unlink, bind, get, lift. simpl.
  destruct (os.remove _ w) as [[?|e'] w1] eqn:Hr;
    apply os_remove_spec in Hr as (_ & Hfds & Hr); simpl; [done|].
  intros [= ->]. destruct Hr as (Hd & Hn & _). done.
Qed.

Lemma unlink_failure_changes_nothing_witness :
  let c := demo.mounted demo.no_fault in
  (unlink "/sub" c).1 = Raise (OSError errno.EISDIR)
  /\ (unlink "/missing" c).1 = Raise (OSError errno.ENOENT)
  /\ disk (world (unlink "/sub" c).2) = disk (world c)
  /\ disk (world (unlink "/missing" c).2) = disk (world c).
Proof.
  intros c.
  assert ((unlink "/sub" c).1 = Raise (OSError errno.EISDIR)) as H1
    by (vm_compute; reflexivity).
  assert ((unlink "/missing" c).1 = Raise (OSError errno.ENOENT)) as H2
    by (vm_compute; reflexivity).
  split; [exact H1|]. split; [exact H2|]. split.
  - exact (proj1 (proj2 (proj2 (unlink_failure_changes_nothing c _ _ H1)))).
  - exact (proj1 (proj2 (proj2 (unlink_failure_changes_nothing c _ _ H2)))).
Defined.

(** ** open *)

Lemma key_set_fds f w p : os.key (set_fds f w) p = os.key w p.
Proof. done. Qed.

Lemma key_set_disk f w p : os.key (set_disk f w) p = os.key w p.
Proof. done. Qed.

Lemma key_set_tmp_names l w p : os.key (set_tmp_names l w) p = os.key w p.
Proof. done. Qed.

(** Property X12.  When the driver refuses nothing, the first name drawn
    for the temporary file is free, the fuzzer is installed and exits with
    status 0 on the bytes of the source file, and the flags are an access
    mode and nothing else ([O_RDONLY], [O_WRONLY] or [O_RDWR]), [open]
    returns the lowest free descriptor, registers it in the table under the
    path of the temporary file, and that file holds exactly what the fuzzer
    wrote; every other path of the disk, the source file included, is as
    before. *)
Theorem open_serves_fuzzed_copy (c : Cfg) (path : string) (flags : Z)
    (name : string) (rest : list string) (prog : program)
    (i : inode) (data out : string) :
  let w := world c in
  let temp := posixpath.join (tmpdir w) ("tmp" +:+ name) in
  let fh := os.lowest_fd (fds w) in
  (forall s, fault w s = None) ->
  tmp_names w = name :: rest ->
  disk w !! os.key w temp = None ->
  programs w !! "radamsa" = Some prog ->
  disk w !! real_path c path = Some i ->
  i_kind i = KFile data ->
  prog (Some data) = (0, out) ->
  access_mode_only flags ->
  (FATS.open path flags c).1 = Ok fh
  /\ temp_files (self (FATS.open path flags c).2)
     = <[fh := temp]> (temp_files (self c))
  /\ fds (world (FATS.open path flags c).2) = <[fh := os.key w temp]> (fds w)
  /\ disk (world (FATS.open path flags c).2)
     = <[os.key w temp := os.set_data out (os.new_file 384)]> (disk w).
Proof.
  destruct c as [[rt tf] w]. unfold real_path. simpl.
  intros Hq Hnames Hfree Hprog Hi Hk Hrun Hflags.
  assert ((os.has os.O_CREAT flags && os.has os.O_EXCL flags)%bool = false)
    as Hexcl by (by destruct Hflags as [->|[->| ->]]).
  assert ((os.has os.O_TRUNC flags && os.writable flags)%bool = false)
    as Htrunc by (by destruct Hflags as [->|[->| ->]]).
  assert (os.key w (_full_path (mk rt tf) path)
          <> os.key w (posixpath.join (tmpdir w) ("tmp" +:+ name))) as Hne
    by congruence.
  unfold FATS.open, tempfile.NamedTemporaryFile, tempfile.close, tempfile.name,
    builtins.with_open, subprocess.run, subprocess.write_stdout,
    subprocess.file_content.
  unfold program in *. monad_unfold. simpl. rewrite Hnames. simpl.
  unfold os.open, os.close, os.remove, os.sys, os.alloc_fd.
  monad_unfold. simpl.
  change (os.has os.O_CREAT builtins.mode_wb) with true.
  change (os.has os.O_EXCL builtins.mode_wb) with false.
  change (os.has os.O_TRUNC builtins.mode_wb) with true.
  change (os.writable builtins.mode_wb) with true.
  repeat (progress
    (rewrite ?Hq, ?key_log, ?key_set_fds, ?key_set_disk, ?key_set_tmp_names,
       ?Hfree, ?lookup_insert_eq, ?Hprog, ?Hexcl, ?Htrunc, ?Hi, ?Hk, ?Hrun,
       ?(lookup_insert_ne _ _ _ _ (not_eq_sym Hne)), ?alter_insert_eq,
       ?insert_insert_eq,
       ?(delete_insert_id _ _ _ (lowest_fd_fresh _));
     simpl)).
  done.
Qed.

Lemma open_serves_fuzzed_copy_witness :
  let c := demo.mounted demo.no_fault in
  disk (world c) !! "/tmp/tmpab12" = None
  /\ disk (world c) !! real_path c "/a.txt" = Some (demo.file "hello")
  /\ access_mode_only os.O_RDWR
  /\ (FATS.open "/a.txt" os.O_RDWR c).1 = Ok 0%nat
  /\ temp_files (self (FATS.open "/a.txt" os.O_RDWR c).2)
     = {[ 0%nat := "/tmp/tmpab12" ]}
  /\ content (FATS.open "/a.txt" os.O_RDWR c).2 "/tmp/tmpab12"
     = Some "hello!"
  /\ content (FATS.open "/a.txt" os.O_RDWR c).2 "/srv/mirror/a.txt"
     = Some "hello".
Proof.
  intros c.
  assert (disk (world c) !! "/tmp/tmpab12" = None) as Hfree
    by (vm_compute; reflexivity).
  assert (disk (world c) !! real_path c "/a.txt" = Some (demo.file "hello"))
    as Hi by (vm_compute; reflexivity).
  assert (access_mode_only os.O_RDWR) as Hflags
    by (right; right; reflexivity).
  destruct (open_serves_fuzzed_copy c "/a.txt" os.O_RDWR "ab12"
              ["cd34"; "ef56"] demo.radamsa (demo.file "hello") "hello"
              "hello!" (fun _ => eq_refl) eq_refl Hfree eq_refl Hi eq_refl
              eq_refl Hflags) as (Hr & Ht & Hf & Hd).
  split; [exact Hfree|]. split; [exact Hi|]. split; [exact Hflags|].
  split; [exact Hr|].
  split; [exact Ht|]. unfold content. rewrite Hd.
  split; vm_compute; reflexivity.
Defined.

Lemma serve_outcomes p flags c r c' i :
  disk (world c) !! os.key (world c) p = Some i -> file_like i ->
  blocks.serve p flags c = (r, c') ->
  same_env (world c) (world c')
  /\ root (self c') = root (self c)
  /\ match r with
     | Ok fh =>
         fds (world c) !! fh = None
         /\ fds (world c') = <[fh := os.key (world c) p]> (fds (world c))
         /\ temp_files (self c') = <[fh := p]> (temp_files (self c))
         /\ exists i', file_like i'
              /\ disk (world c') = <[os.key (world c) p := i']> (disk (world c))
     | Raise e =>
         self c' = self c /\ disk (world c') = disk (world c)
         /\ fds (world c') = fds (world c) /\ exists n, e = OSError n
     end.
Proof.
  destruct c as [[rt tf] w]. unfold blocks.serve, set_temp_files.
  unfold bind, lift, modify, ret. simpl. intros Hi Hfile.
  destruct (os.open p flags 511 w) as [[fh|e] w1] eqn:Hopen;
    apply os_open_spec in Hopen as (Henv & Hopen); intros [= <- <-]; simpl.
  - destruct Hopen as (Hfd & Hfds & Hdisk). rewrite Hi in Hdisk.
    split; [done|]. split; [done|]. split; [done|]. split; [done|].
    split; [done|]. destruct Hdisk as [_ [->|[_ ->]]].
    + exists i. by rewrite insert_id.
    + eauto using file_like_set_data.
  - destruct Hopen as (Hd & Hf & Hn). auto 10.
Qed.

(** What [open] can end in, when the driver refuses no deletion and no
    close. *)
Lemma open_outcomes path flags c r c' :
  quiet (world c) ->
  FATS.open path flags c = (r, c') ->
  same_env (world c) (world c')
  /\ root (self c') = root (self c)
  /\ match r with
     | Ok fh =>
         exists p i,
           p <> ""
           /\ disk (world c) !! os.key (world c) p = None
           /\ fds (world c) !! fh = None
           /\ file_like i
           /\ disk (world c') = <[os.key (world c) p := i]> (disk (world c))
           /\ fds (world c') = <[fh := os.key (world c) p]> (fds (world c))
           /\ temp_files (self c') = <[fh := p]> (temp_files (self c))
     | Raise e =>
         self c' = self c /\ fds (world c') = fds (world c)
         /\ ((e = FuseOSError errno.EIO /\ disk (world c') = disk (world c))
             \/ exists n p i,
                  e = OSError n
                  /\ disk (world c) !! os.key (world c) p = None
                  /\ file_like i
                  /\ disk (world c')
                     = <[os.key (world c) p := i]> (disk (world c)))
     end.
Proof.
  intros Hqc. rewrite open_blocks. unfold bind.
  destruct (blocks.allocate c) as [[p|e] c1] eqn:Hal;
    apply allocate_spec in Hal as (Hs1 & Henv1 & Hfds1 & Hal); try done.
  2: { intros [= <- <-]. destruct Hal as [-> Hd1].
       split; [done|]. split; [by rewrite Hs1|]. auto 10. }
  destruct Hal as (Hne & Hnone & Hd1).
  set (k := os.key (world c) p) in *.
  assert (forall q, os.key (world c1) q = os.key (world c) q) as Hk1
    by (intros; by apply same_env_key).
  destruct (blocks.mutate p _ c1) as [[?|e] c2] eqn:Hmu;
    eapply (mutate_spec _ _ _ _ _ (os.new_file 384)) in Hmu
      as (Hs2 & Henv2 & Hfds2 & Hmu);
    try (by eapply quiet_same_env); try done;
    try (by rewrite Hk1; fold k; rewrite Hd1, lookup_insert_eq).
  2: { intros [= <- <-]. destruct Hmu as [-> Hd2].
       rewrite Hk1 in Hd2. fold k in Hd2.
       rewrite Hd1, delete_insert_id in Hd2 by done.
       split; [by eapply same_env_trans|].
       split; [by rewrite Hs2, Hs1|].
       split; [congruence|]. split; [congruence|]. by left. }
  destruct Hmu as (i2 & Hfile2 & Hd2).
  rewrite Hk1 in Hd2. fold k in Hd2. rewrite Hd1, insert_insert_eq in Hd2.
  assert (forall q, os.key (world c2) q = os.key (world c) q) as Hk2.
  { intros. rewrite (same_env_key (world c1)) by done. apply Hk1. }
  assert (same_env (world c) (world c2)) as Henv12
    by (by eapply same_env_trans).
  destruct (blocks.serve p flags c2) as [r3 c3] eqn:Hse.
  eapply (serve_outcomes _ _ _ _ _ i2) in Hse as (Henv3 & Hrt3 & Hse);
    try done; try (by rewrite Hk2; fold k; rewrite Hd2, lookup_insert_eq).
  intros [= <- <-].
  split; [by eapply same_env_trans|].
  split; [by rewrite Hrt3, Hs2, Hs1|].
  destruct r3 as [fh|e].
  - destruct Hse as (Hfd & Hfds3 & Htf3 & i3 & Hfile3 & Hd3).
    rewrite Hk2 in Hfds3, Hd3. fold k in Hfds3, Hd3.
    rewrite Hd2, insert_insert_eq in Hd3.
    rewrite Hfds2, Hfds1 in Hfd, Hfds3. rewrite Hs2, Hs1 in Htf3.
    exists p, i3. auto 10.
  - destruct Hse as (Hs3 & Hd3 & Hf3 & n & ->).
    split; [congruence|]. split; [congruence|]. right.
    exists n, p, i2. rewrite Hd3, Hd2. auto.
Qed.

Lemma allocate_raises c e c' :
  blocks.allocate c = (Raise e, c') -> e = FuseOSError errno.EIO.
Proof.
  unfold blocks.allocate, try_except.
  destruct (bind _ _ c) as [[?|?] ?]; unfold raise; congruence.
Qed.

Lemma cleanup_raises p e0 c r c' :
  blocks.cleanup p e0 c = (r, c') ->
  r = Raise (FuseOSError errno.EIO) \/ exists n, r = Raise (OSError n).
Proof.
  assert (bind (lift (os.remove p))
            (fun _ => raise (FuseOSError errno.EIO)) c = (r, c') ->
          r = Raise (FuseOSError errno.EIO) \/ exists n, r = Raise (OSError n))
    as Hbody.
  { unfold bind, lift, raise.
    destruct (os.remove p (world c)) as [[?|e'] w1] eqn:Hr;
      apply os_remove_spec in Hr as (_ & _ & Hr); intros [= <- <-].
    - by left.
    - destruct Hr as (_ & [n ->] & _). right. by exists n. }
  unfold blocks.cleanup. repeat case_match; apply Hbody.
Qed.

(** [mutate] completes only when the executable it names is there and
    exits with status 0. *)
Lemma mutate_ok_ran p command c u c' :
  blocks.mutate p command c = (Ok u, c') ->
  exists prog src,
    programs (world c) !! default "" (head command) = Some prog
    /\ (prog src).1 = 0.
Proof.
  destruct c as [s w].
  unfold blocks.mutate, builtins.with_open.
  unfold try_except, lift at 1, bind, try_finally. simpl.
  destruct (os.open p builtins.mode_wb 438 w) as [[f|e] w1] eqn:Hopen;
    apply os_open_spec in Hopen as (Henv1 & Hopen).
  2: { intros Hc. by apply cleanup_raises in Hc as [Hc|[n Hc]]. }
  destruct (subprocess.run command f w1) as [rr w2] eqn:Hrun.
  destruct (os.close f w2) as [[?|e] w3] eqn:Hcl.
  2: { intros Hc. by apply cleanup_raises in Hc as [Hc|[n Hc]]. }
  destruct rr as [?|e].
  2: { intros Hc. by apply cleanup_raises in Hc as [Hc|[n Hc]]. }
  intros _. destruct Henv1 as (_ & _ & Hprogs & _).
  revert Hrun. unfold subprocess.run, os.sys. monad_unfold. simpl.
  rewrite Hprogs.
  destruct (programs w !! default "" (head command)) as [prog|] eqn:Hp;
    [|done].
  destruct (fault w1 _); [done|]. simpl.
  destruct (prog _) as [rc out] eqn:Hprog. simpl.
  destruct (rc =? 0) eqn:Hrc; [|done].
  intros _. exists prog. eexists. split; [done|]. rewrite Hprog. simpl. lia.
Qed.

(** Property X13.  When the fuzzer is not installed, or exits with a
    status other than 0 whatever it reads, and the driver refuses no
    deletion and no close, [open] returns no handle: it raises the I/O
    error [EIO], not the [FileNotFoundError] or the [CalledProcessError]
    of the fuzzing step, and the disk, the descriptors and the object with
    its table are as before the call. *)
Theorem open_fuzzer_failure_raises_eio (c : Cfg) (path : string) (flags : Z) :
  quiet (world c) ->
  fuzzer_unusable (world c) ->
  (FATS.open path flags c).1 = Raise (FuseOSError errno.EIO)
  /\ self (FATS.open path flags c).2 = self c
  /\ disk (world (FATS.open path flags c).2) = disk (world c)
  /\ fds (world (FATS.open path flags c).2) = fds (world c).
Proof.
  intros Hq Hfz.
  assert ((FATS.open path flags c).1 = Raise (FuseOSError errno.EIO)) as Hr.
  { rewrite open_blocks. unfold bind.
    destruct (blocks.allocate c) as [[p|e] c1] eqn:Hal.
    2: { simpl. f_equal. by eapply allocate_raises. }
    apply allocate_spec in Hal as (Hs1 & Henv1 & Hfds1 & Hne & Hnone & Hd1);
      [|done].
    destruct (blocks.mutate p _ c1) as [[?|e] c2] eqn:Hmu.
    - apply mutate_ok_ran in Hmu as (prog & src & Hp & Hz). simpl in Hp.
      destruct Henv1 as (_ & _ & Hprogs & _). rewrite Hprogs in Hp.
      by destruct (Hfz prog Hp src).
    - simpl. f_equal.
      eapply (mutate_spec _ _ _ _ _ (os.new_file 384)) in Hmu
        as (_ & _ & _ & -> & _); try done.
      + by eapply quiet_same_env.
      + rewrite (same_env_key (world c)) by done.
        by rewrite Hd1, lookup_insert_eq. }
  split; [exact Hr|].
  destruct (FATS.open path flags c) as [r c1] eqn:Hopen. simpl in *. subst r.
  apply open_outcomes in Hopen as (Henv & Hrt & Hopen); [|done].
  destruct Hopen as (Hs & Hf & [[He Hd]|(n & p & i & He & _)]); done.
Qed.

Lemma open_fuzzer_failure_raises_eio_witness :
  let c := scenes.failing_fuzzer in
  quiet (world c)
  /\ fuzzer_unusable (world c)
  /\ (FATS.open "/a.txt" os.O_RDONLY c).1 = Raise (FuseOSError errno.EIO)
  /\ disk (world (FATS.open "/a.txt" os.O_RDONLY c).2) = disk (world c)
  /\ fuzzer_unusable (world scenes.without_fuzzer)
  /\ (FATS.open "/a.txt" os.O_RDONLY scenes.without_fuzzer).1
     = Raise (FuseOSError errno.EIO).
Proof.
  intros c.
  assert (quiet (world c)) as Hq by (split; intros; reflexivity).
  assert (fuzzer_unusable (world c)) as Hfz.
  { intros prog Hp src. vm_compute in Hp. injection Hp as <-. discriminate. }
  assert (quiet (world scenes.without_fuzzer)) as Hq'
    by (split; intros; reflexivity).
  assert (fuzzer_unusable (world scenes.without_fuzzer)) as Hfz'.
  { intros prog Hp src. vm_compute in Hp. discriminate. }
  destruct (open_fuzzer_failure_raises_eio c "/a.txt" os.O_RDONLY Hq Hfz)
    as (Hr & _ & Hd & _).
  destruct (open_fuzzer_failure_raises_eio scenes.without_fuzzer "/a.txt"
              os.O_RDONLY Hq' Hfz') as (Hr' & _).
  split; [exact Hq|]. split; [exact Hfz|]. split; [exact Hr|].
  split; [exact Hd|]. split; [exact Hfz' | exact Hr'].
Defined.

(** Property X14.  When the driver refuses no deletion and no close and
    [open] raises a [FuseOSError], the error is [EIO] and nothing is left
    behind: the disk, the descriptors and the object with its table are
    exactly as before the call. *)
Theorem open_eio_leaves_nothing (c : Cfg) (path : string) (flags : Z) (e : Z) :
  quiet (world c) ->
  (FATS.open path flags c).1 = Raise (FuseOSError e) ->
  e = errno.EIO
  /\ self (FATS.open path flags c).2 = self c
  /\ disk (world (FATS.open path flags c).2) = disk (world c)
  /\ fds (world (FATS.open path flags c).2) = fds (world c).
Proof.
  intros Hq Hr.
  destruct (FATS.open path flags c) as [r c1] eqn:Hopen. simpl in *. subst r.
  apply open_outcomes in Hopen as (Henv & Hrt & Hopen); [|done].
  destruct Hopen as (Hs & Hf & [[He Hd]|(n & p & i & He & _)]); [|done].
  injection He as ->. done.
Qed.

Lemma open_eio_leaves_nothing_witness :
  let c := scenes.failing_fuzzer in
  quiet (world c)
  /\ (FATS.open "/a.txt" os.O_RDONLY c).1 = Raise (FuseOSError errno.EIO)
  /\ self (FATS.open "/a.txt" os.O_RDONLY c).2 = self c
  /\ disk (world (FATS.open "/a.txt" os.O_RDONLY c).2) = disk (world c)
  /\ fds (world (FATS.open "/a.txt" os.O_RDONLY c).2) = fds (world c).
Proof.
  intros c.
  assert (quiet (world c)) as Hq by (split; intros; reflexivity).
  assert ((FATS.open "/a.txt" os.O_RDONLY c).1 = Raise (FuseOSError errno.EIO))
    as Hr by (vm_compute; reflexivity).
  destruct (open_eio_leaves_nothing c "/a.txt" os.O_RDONLY errno.EIO Hq Hr)
    as (_ & Hs & Hd & Hf).
  split; [exact Hq|]. split; [exact Hr|]. split; [exact Hs|].
  split; [exact Hd | exact Hf].
Defined.

Lemma open_disk_frame (c : Cfg) (path : string) (flags : Z) (k : string) :
  quiet (world c) ->
  is_Some (disk (world c) !! k) ->
  disk (world (FATS.open path flags c).2) !! k = disk (world c) !! k.
Proof.
  intros Hq [x Hx].
  destruct (FATS.open path flags c) as [r c1] eqn:Hopen. simpl.
  apply open_outcomes in Hopen as (Henv & Hrt & Hopen); [|done].
  destruct r as [fh|e].
  - destruct Hopen as (p & i & _ & Hnone & _ & _ & Hd & _).
    rewrite Hd, lookup_insert_ne; [done|]. congruence.
  - destruct Hopen as (_ & _ & [[_ Hd]|(n & p & i & _ & Hnone & _ & Hd)]).
    + by rewrite Hd.
    + rewrite Hd, lookup_insert_ne; [done|]. congruence.
Qed.

(** Property X15.  When the driver refuses no deletion and no close, [open]
    leaves every entry that is on disk exactly as it is, whatever the call
    ends in: the mirrored files are read by the fuzzer and never written. *)
Theorem open_keeps_existing_files (c : Cfg) (path : string) (flags : Z)
    (k : string) :
  quiet (world c) ->
  is_Some (disk (world c) !! k) ->
  disk (world (FATS.open path flags c).2) !! k = disk (world c) !! k.
Proof.
  intros Hq [x Hx].
  destruct (FATS.open path flags c) as [r c1] eqn:Hopen. simpl.
  apply open_outcomes in Hopen as (Henv & Hrt & Hopen); [|done].
  destruct r as [fh|e].
  - destruct Hopen as (p & i & _ & Hnone & _ & _ & Hd & _).
    rewrite Hd, lookup_insert_ne; [done|]. congruence.
  - destruct Hopen as (_ & _ & [[_ Hd]|(n & p & i & _ & Hnone & _ & Hd)]).
    + by rewrite Hd.
    + rewrite Hd, lookup_insert_ne; [done|]. congruence.
Qed.

Lemma open_keeps_existing_files_witness :
  let c := demo.mounted demo.no_fault in
  quiet (world c)
  /\ is_Some (disk (world c) !! "/srv/mirror/a.txt")
  /\ disk (world (FATS.open "/a.txt" os.O_RDWR c).2) !! "/srv/mirror/a.txt"
     = Some (demo.file "hello").
Proof.
  intros c.
  assert (quiet (world c)) as Hq by (split; intros; reflexivity).
  assert (is_Some (disk (world c) !! "/srv/mirror/a.txt")) as Hk
    by (eexists; vm_compute; reflexivity).
  split; [exact Hq|]. split; [exact Hk|].
  rewrite (open_keeps_existing_files c "/a.txt" os.O_RDWR _ Hq Hk).
  vm_compute. reflexivity.
Defined.

(** [release] of a handle that the table holds, when the driver goes
    along. *)
Lemma release_tracked c path fh p i k' :
  temp_files (self c) !! fh = Some p -> p <> "" ->
  fault (world c) (SysRemove p) = None ->
  fault (world c) (SysClose fh) = None ->
  disk (world c) !! os.key (world c) p = Some i -> file_like i ->
  fds (world c) !! fh = Some k' ->
  (release path fh c).1 = Ok tt
  /\ self (release path fh c).2
     = mk (root (self c)) (delete fh (temp_files (self c)))
  /\ disk (world (release path fh c).2)
     = delete (os.key (world c) p) (disk (world c))
  /\ fds (world (release path fh c).2) = delete fh (fds (world c)).
Proof.
  destruct c as [[rt tf] w]. simpl. unfold file_like.
  intros Hp Hne Hfr Hfc Hi Hfile Hfd.
  unfold release, os.remove, os.close, os.sys, truthy. monad_unfold. simpl.
  rewrite Hp. simpl. destruct (String.eqb_spec p ""); [done|]. simpl.
  rewrite Hfr. simpl. rewrite !key_log, Hi. simpl.
  destruct (i_kind i); try done; simpl; rewrite Hfc; simpl; by rewrite Hfd.
Qed.

(** Property X16.  When the driver refuses no deletion and no close,
    [release] of a handle that [open] has just returned succeeds and undoes
    the [open]: the disk and the descriptors are exactly as before the
    [open], and the table has no entry for the handle. *)
Theorem open_release_restores (c : Cfg) (path path' : string) (flags : Z)
    (fh : nat) :
  quiet (world c) ->
  (FATS.open path flags c).1 = Ok fh ->
  let c1 := (FATS.open path flags c).2 in
  let c2 := (release path' fh c1).2 in
  (release path' fh c1).1 = Ok tt
  /\ disk (world c2) = disk (world c)
  /\ fds (world c2) = fds (world c)
  /\ temp_files (self c2) = delete fh (temp_files (self c)).
Proof.
  intros Hq Hr c1 c2. subst c2 c1.
  destruct (FATS.open path flags c) as [r c1] eqn:Hopen. simpl in *. subst r.
  apply open_outcomes in Hopen as (Henv & Hrt & Hopen); [|done].
  destruct Hopen as (p & i & Hne & Hnone & Hfd & Hfile & Hd & Hf & Ht).
  assert (quiet (world c1)) as [Hqr Hqc] by (by eapply quiet_same_env).
  destruct (release_tracked c1 path' fh p i (os.key (world c) p))
    as (Hres & Hs & Hd' & Hf'); try done.
  - by rewrite Ht, lookup_insert_eq.
  - by rewrite (same_env_key (world c)), Hd, lookup_insert_eq.
  - by rewrite Hf, lookup_insert_eq.
  - split; [done|]. rewrite Hd', Hf', Hs. simpl.
    rewrite (same_env_key (world c)) by done.
    rewrite Hd, Hf, Ht.
    rewrite !delete_insert_id by done. rewrite delete_insert_eq. done.
Qed.

Lemma open_release_restores_witness :
  let c := demo.mounted demo.no_fault in
  let c1 := (FATS.open "/a.txt" os.O_RDONLY c).2 in
  quiet (world c)
  /\ (FATS.open "/a.txt" os.O_RDONLY c).1 = Ok 0%nat
  /\ (release "/a.txt" 0 c1).1 = Ok tt
  /\ disk (world (release "/a.txt" 0 c1).2) = disk (world c)
  /\ fds (world (release "/a.txt" 0 c1).2) = fds (world c).
Proof.
  intros c c1.
  assert (quiet (world c)) as Hq by (split; intros; reflexivity).
  assert ((FATS.open "/a.txt" os.O_RDONLY c).1 = Ok 0%nat) as Hr
    by (vm_compute; reflexivity).
  destruct (open_release_restores c "/a.txt" "/a.txt" os.O_RDONLY 0%nat Hq Hr)
    as (Hr2 & Hd & Hf & _).
  split; [exact Hq|]. split; [exact Hr|]. split; [exact Hr2|].
  split; [exact Hd | exact Hf].
Defined.

(** Property X17.  Two successful [open] calls in a row, of the same path
    or not, return different handles bound to different artifacts; the
    second call leaves the artifact of the first as it is. *)
Theorem opens_are_independent (c : Cfg) (path1 path2 : string)
    (flags1 flags2 : Z) (fh1 fh2 : nat) :
  quiet (world c) ->
  (FATS.open path1 flags1 c).1 = Ok fh1 ->
  let c1 := (FATS.open path1 flags1 c).2 in
  (FATS.open path2 flags2 c1).1 = Ok fh2 ->
  let c2 := (FATS.open path2 flags2 c1).2 in
  fh1 <> fh2
  /\ exists p1 p2 : string,
       temp_files (self c2) !! fh1 = Some p1
       /\ temp_files (self c2) !! fh2 = Some p2
       /\ os.key (world c2) p1 <> os.key (world c2) p2
       /\ is_Some (disk (world c2) !! os.key (world c2) p2)
       /\ disk (world c2) !! os.key (world c2) p1
          = disk (world c1) !! os.key (world c1) p1
       /\ is_Some (disk (world c1) !! os.key (world c1) p1).
Proof.
  intros Hq Hr1 c1 Hr2 c2. subst c2. 
  destruct (FATS.open path1 flags1 c) as [r1 c1'] eqn:Ho1. simpl in *.
  subst c1 r1.
  apply open_outcomes in Ho1 as (Henv1 & _ & Ho1); [|done].
  destruct Ho1 as (p1 & i1 & _ & Hn1 & Hfd1 & _ & Hd1 & Hf1 & Ht1).
  destruct (FATS.open path2 flags2 c1') as [r2 c2] eqn:Ho2. simpl in *.
  subst r2.
  apply open_outcomes in Ho2 as (Henv2 & _ & Ho2);
    [|by eapply quiet_same_env].
  destruct Ho2 as (p2 & i2 & _ & Hn2 & Hfd2 & _ & Hd2 & Hf2 & Ht2).
  assert (forall q, os.key (world c1') q = os.key (world c) q) as Hk1
    by (intros; by apply same_env_key).
  assert (forall q, os.key (world c2) q = os.key (world c) q) as Hk2.
  { intros. rewrite (same_env_key (world c1')) by done. apply Hk1. }
  rewrite Hk1 in Hn2, Hd2, Hf2.
  assert (fh1 <> fh2) as Hfh.
  { intros <-. by rewrite Hf1, lookup_insert_eq in Hfd2. }
  assert (os.key (world c) p1 <> os.key (world c) p2) as Hkk.
  { intros Heq. by rewrite Hd1, Heq, lookup_insert_eq in Hn2. }
  split; [done|]. exists p1, p2. rewrite !Hk2, !Hk1.
  split; [by rewrite Ht2, lookup_insert_ne, Ht1, lookup_insert_eq|].
  split; [by rewrite Ht2, lookup_insert_eq|].
  split; [done|].
  split; [by rewrite Hd2, lookup_insert_eq|].
  split; [by rewrite Hd2, lookup_insert_ne|].
  by rewrite Hd1, lookup_insert_eq.
Qed.

Lemma opens_are_independent_witness :
  let c := demo.mounted demo.no_fault in
  let c1 := (FATS.open "/a.txt" os.O_RDONLY c).2 in
  let c2 := (FATS.open "/a.txt" os.O_RDONLY c1).2 in
  quiet (world c)
  /\ (FATS.open "/a.txt" os.O_RDONLY c).1 = Ok 0%nat
  /\ (FATS.open "/a.txt" os.O_RDONLY c1).1 = Ok 1%nat
  /\ exists p1 p2 : string,
       temp_files (self c2) !! 0%nat = Some p1
       /\ temp_files (self c2) !! 1%nat = Some p2
       /\ os.key (world c2) p1 <> os.key (world c2) p2.
Proof.
  intros c c1 c2.
  assert (quiet (world c)) as Hq by (split; intros; reflexivity).
  assert ((FATS.open "/a.txt" os.O_RDONLY c).1 = Ok 0%nat) as Hr1
    by (vm_compute; reflexivity).
  assert ((FATS.open "/a.txt" os.O_RDONLY c1).1 = Ok 1%nat) as Hr2
    by (vm_compute; reflexivity).
  destruct (opens_are_independent c "/a.txt" "/a.txt" os.O_RDONLY os.O_RDONLY
              0%nat 1%nat Hq Hr1 Hr2)
    as (_ & p1 & p2 & H1 & H2 & Hne & _).
  split; [exact Hq|]. split; [exact Hr1|]. split; [exact Hr2|].
  exists p1, p2. split; [exact H1|]. split; [exact H2 | exact Hne].
Defined.

(** ** What holds in every reachable configuration *)

Lemma reachable_Inv c0 c :
  temp_files (self c0) = ∅ -> quiet (world c0) ->
  reachable handle_or_eio c0 c -> Inv c0 c.
Proof.
  intros Hempty Hq Hreach.
  induction Hreach as [|c path flags _ IH Hok|c path fh _ IH].
  - by apply Inv_mount.
  - by apply Inv_open.
  - by apply Inv_release.
Qed.

Lemma two_opens_reachable :
  reachable handle_or_eio (demo.mounted demo.no_fault) two_opens.
Proof.
  apply reach_open; [apply reach_open; [apply reach_mount | exact I] | exact I].
Defined.

(** Property X18.  In every configuration reached from a mount with an
    empty table by [open] and [release] calls (the driver refusing no
    deletion and no close, each [open] returning a handle or [EIO]): every
    handle of the table is an open descriptor and maps to a path with a
    name, at which a regular file exists; and different handles map to
    different artifacts. *)
Theorem handles_own_their_artifacts (c0 c : Cfg) :
  temp_files (self c0) = ∅ ->
  quiet (world c0) ->
  reachable handle_or_eio c0 c ->
  (forall (fh : nat) (p : string),
      temp_files (self c) !! fh = Some p ->
      p <> "" /\ is_Some (fds (world c) !! fh)
      /\ exists data, content c (os.key (world c) p) = Some data)
  /\ (forall (fh1 fh2 : nat) (p1 p2 : string),
        temp_files (self c) !! fh1 = Some p1 ->
        temp_files (self c) !! fh2 = Some p2 ->
        fh1 <> fh2 -> os.key (world c) p1 <> os.key (world c) p2).
Proof.
  intros Hempty Hq Hreach.
  destruct (reachable_Inv c0 c Hempty Hq Hreach) as [_ _ _ Hinj Hopen Hfile].
  split.
  - intros fh p Hl. destruct (Hfile _ _ Hl) as (Hne & i & Hi & Hlike).
    split; [done|]. split; [by eapply Hopen|].
    unfold content. rewrite Hi. unfold file_like in Hlike.
    destruct (i_kind i); try done. by eexists.
  - intros fh1 fh2 p1 p2 H1 H2 Hne Heq. apply Hne. by eapply Hinj.
Qed.

Lemma handles_own_their_artifacts_witness :
  let c0 := demo.mounted demo.no_fault in
  temp_files (self c0) = ∅ /\ quiet (world c0)
  /\ reachable handle_or_eio c0 two_opens
  /\ temp_files (self two_opens) !! 0%nat = Some "/tmp/tmpab12"
  /\ temp_files (self two_opens) !! 1%nat = Some "/tmp/tmpcd34"
  /\ is_Some (fds (world two_opens) !! 1%nat)
  /\ os.key (world two_opens) "/tmp/tmpab12"
     <> os.key (world two_opens) "/tmp/tmpcd34".
Proof.
  intros c0.
  assert (quiet (world c0)) as Hq by (split; intros; reflexivity).
  assert (temp_files (self two_opens) !! 0%nat = Some "/tmp/tmpab12") as H0
    by (vm_compute; reflexivity).
  assert (temp_files (self two_opens) !! 1%nat = Some "/tmp/tmpcd34") as H1
    by (vm_compute; reflexivity).
  destruct (handles_own_their_artifacts c0 two_opens eq_refl Hq
              two_opens_reachable) as (Hown & Hdist).
  split; [reflexivity|]. split; [exact Hq|].
  split; [exact two_opens_reachable|]. split; [exact H0|]. split; [exact H1|].
  split; [exact (proj1 (proj2 (Hown _ _ H1)))|].
  apply (Hdist 0%nat 1%nat _ _ H0 H1). discriminate.
Defined.

(** Property X19.  In every such configuration, every entry that was on
    disk at the mount is still there with the inode it had: whatever is
    opened and released, the mirrored tree is not written, truncated or
    deleted. *)
Theorem mirrored_tree_untouched (c0 c : Cfg) (k : string) :
  temp_files (self c0) = ∅ ->
  quiet (world c0) ->
  reachable handle_or_eio c0 c ->
  is_Some (disk (world c0) !! k) ->
  disk (world c) !! k = disk (world c0) !! k.
Proof.
  intros Hempty Hq Hreach Hk.
  induction Hreach as [|c path flags Hreach IH Hok|c path fh Hreach IH].
  - done.
  - rewrite <- IH. apply open_disk_frame.
    + eapply quiet_same_env; [|exact Hq].
      by destruct (reachable_Inv c0 c Hempty Hq Hreach).
    + by rewrite IH.
  - rewrite <- IH.
    destruct (reachable_Inv c0 c Hempty Hq Hreach) as [_ _ Hcorr _ _ _].
    destruct (release path fh c) as [r c'] eqn:Hrel. simpl.
    apply release_spec in Hrel as (_ & _ & _ & Hdisk).
    destruct (temp_files (self c) !! fh) as [p|] eqn:Hp; [|by rewrite Hdisk].
    destruct Hdisk as [->|[-> _]]; [|done].
    apply lookup_delete_ne. intros <-.
    destruct (proj2 (Hcorr (os.key (world c) p))) as [_ Hnone].
    + by exists fh, p.
    + rewrite Hnone in Hk. by destruct Hk.
Qed.

Lemma mirrored_tree_untouched_witness :
  let c0 := demo.mounted demo.no_fault in
  temp_files (self c0) = ∅ /\ quiet (world c0)
  /\ reachable handle_or_eio c0 two_opens
  /\ is_Some (disk (world c0) !! "/srv/mirror/a.txt")
  /\ disk (world two_opens) !! "/srv/mirror/a.txt" = Some (demo.file "hello").
Proof.
  intros c0.
  assert (quiet (world c0)) as Hq by (split; intros; reflexivity).
  assert (is_Some (disk (world c0) !! "/srv/mirror/a.txt")) as Hk
    by (eexists; vm_compute; reflexivity).
  split; [reflexivity|]. split; [exact Hq|].
  split; [exact two_opens_reachable|]. split; [exact Hk|].
  rewrite (mirrored_tree_untouched c0 two_opens _ eq_refl Hq
             two_opens_reachable Hk).
  vm_compute. reflexivity.
Defined.

(** Property X20.  In every such configuration, [release] of one handle
    leaves every other handle as it is: its entry in the table, its
    descriptor and its artifact on disk. *)
Theorem release_leaves_other_handles (c0 c : Cfg) (path : string)
    (fh fh' : nat) (p' : string) :
  temp_files (self c0) = ∅ ->
  quiet (world c0) ->
  reachable handle_or_eio c0 c ->
  fh <> fh' ->
  temp_files (self c) !! fh' = Some p' ->
  let c' := (release path fh c).2 in
  temp_files (self c') !! fh' = Some p'
  /\ fds (world c') !! fh' = fds (world c) !! fh'
  /\ disk (world c') !! os.key (world c') p'
     = disk (world c) !! os.key (world c) p'.
Proof.
  intros Hempty Hq Hreach Hne Hl c'. subst c'.
  destruct (reachable_Inv c0 c Hempty Hq Hreach) as [_ _ _ Hinj _ _].
  destruct (release path fh c) as [r c'] eqn:Hrel. simpl.
  apply release_spec in Hrel as (Htf & Henv & Hfds & Hdisk).
  rewrite (same_env_key (world c)) by done.
  split; [by rewrite Htf, lookup_delete_ne|].
  split.
  { destruct Hfds as [-> | ->]; [done|]. by rewrite lookup_delete_ne. }
  destruct (temp_files (self c) !! fh) as [p|] eqn:Hp; [|by rewrite Hdisk].
  destruct Hdisk as [->|[-> _]]; [|done].
  apply lookup_delete_ne. intros Heq. apply Hne. by eapply Hinj.
Qed.

Lemma release_leaves_other_handles_witness :
  let c0 := demo.mounted demo.no_fault in
  let c' := (release "/a.txt" 0 two_opens).2 in
  temp_files (self c0) = ∅ /\ quiet (world c0)
  /\ reachable handle_or_eio c0 two_opens
  /\ temp_files (self two_opens) !! 1%nat = Some "/tmp/tmpcd34"
  /\ temp_files (self c') !! 1%nat = Some "/tmp/tmpcd34"
  /\ fds (world c') !! 1%nat = fds (world two_opens) !! 1%nat
  /\ disk (world c') !! os.key (world c') "/tmp/tmpcd34"
     = disk (world two_opens) !! os.key (world two_opens) "/tmp/tmpcd34".
Proof.
  intros c0 c'.
  assert (quiet (world c0)) as Hq by (split; intros; reflexivity).
  assert (temp_files (self two_opens) !! 1%nat = Some "/tmp/tmpcd34") as H1
    by (vm_compute; reflexivity).
  assert (0%nat <> 1%nat) as Hne by discriminate.
  destruct (release_leaves_other_handles c0 two_opens "/a.txt" 0%nat 1%nat _
              eq_refl Hq two_opens_reachable Hne H1) as (Ht & Hf & Hd).
  split; [reflexivity|]. split; [exact Hq|].
  split; [exact two_opens_reachable|]. split; [exact H1|].
  split; [exact Ht|]. split; [exact Hf | exact Hd].
Defined.

